(** * Directory change reconciliation of the shell browser

    A shallow embedding of [ShellBrowser/DirectoryModificationHandler.cpp]:
    the queue of altered files, the handlers for the five kinds of file
    action, the rename globals [g_bNewFileRenamed] and [g_iRenamedItem], the
    running directory and selection sizes, and the selection pass that ends
    [DirectoryAltered].

    Conventions.
    - [int] indices and ids are [Z], with [-1] as the "not found" value the
      source uses.
    - [ULARGE_INTEGER] counters are [Z] reduced modulo [2^64] after every
      update; a file size is the pair of [DWORD]s of [WIN32_FIND_DATA].
    - [m_itemInfoMap] is a [gmap Z ItemInfo_t]; [.at] on a missing key
      throws, which is the [None] of the [option] returned by the handlers
      that use it.
    - The file system is a function from a file name (relative to the
      watched directory) to the [WIN32_FIND_DATA] found there, if any.  It may
      differ from one notification to the next: the batch is run against a
      sequence of file systems, one per queued notification.
    - File names are [string]s compared with [String.eqb] ([lstrcmp] = 0).
    - Logging, redraw switching, icons, column tasks and groups do not touch
      the modelled state and are left out. *)

From Stdlib Require Import ZArith String List Bool Lia.
From stdpp Require Import gmap list fin_maps strings.

Local Open Scope Z_scope.

(** ** Constants of the Windows headers *)

Definition MAX_PATH : nat := 260.

Definition FILE_ACTION_ADDED : Z := 1.
Definition FILE_ACTION_REMOVED : Z := 2.
Definition FILE_ACTION_MODIFIED : Z := 3.
Definition FILE_ACTION_RENAMED_OLD_NAME : Z := 4.
Definition FILE_ACTION_RENAMED_NEW_NAME : Z := 5.

Definition FILE_ATTRIBUTE_HIDDEN : Z := 2.

(** ** Data *)

Record WIN32_FIND_DATA := mkWfd {
  dwFileAttributes : Z;
  nFileSizeHigh : Z;
  nFileSizeLow : Z;
  cFileName : string
}.

Record ItemInfo_t := mkItemInfo {
  pidlComplete : string;
  wfd : WIN32_FIND_DATA
}.

Record AlteredFile_t := mkAltered {
  szFileName : string;
  dwAction : Z;
  iFolderIndex : Z
}.

Record AwaitingAdd_t := mkAwaiting {
  iItem : Z;
  iItemInternal : Z;
  bPosition : bool;
  iAfter : Z
}.

(** One row of the list view: the internal id it carries in [lParam] and the
    two state bits the handlers read or write. *)
Record LVITEM := mkLv {
  lParam : Z;
  lvis_selected : bool;
  lvis_cut : bool
}.

(** Calls made on the list view, in the order they are made. *)
Inductive Directive :=
| LvInsertItem (id : Z) (pos : nat)
| LvDeleteItem (id : Z)
| LvSelectItem (index : Z)
| LvFocusItem (index : Z)
| LvEnsureVisible (index : Z).

Definition FS := string -> option WIN32_FIND_DATA.

Record State := mkState {
  m_uniqueFolderId : Z;
  m_itemInfoMap : gmap Z ItemInfo_t;
  m_itemIDCounter : Z;
  listView : list LVITEM;
  awaitingAddList : list AwaitingAdd_t;
  m_FilesAdded : list string;
  m_DroppedFileNameList : list string;
  m_FileSelectionList : list string;
  m_AlteredList : list AlteredFile_t;
  totalDirSize : Z;
  fileSelectionSize : Z;
  g_bNewFileRenamed : bool;
  g_iRenamedItem : Z;
  directives : list Directive
}.

Definition with_itemInfoMap (m : gmap Z ItemInfo_t) (s : State) : State :=
  mkState (m_uniqueFolderId s) m (m_itemIDCounter s) (listView s)
    (awaitingAddList s) (m_FilesAdded s) (m_DroppedFileNameList s)
    (m_FileSelectionList s) (m_AlteredList s) (totalDirSize s)
    (fileSelectionSize s) (g_bNewFileRenamed s) (g_iRenamedItem s)
    (directives s).

Definition with_itemIDCounter (c : Z) (s : State) : State :=
  mkState (m_uniqueFolderId s) (m_itemInfoMap s) c (listView s)
    (awaitingAddList s) (m_FilesAdded s) (m_DroppedFileNameList s)
    (m_FileSelectionList s) (m_AlteredList s) (totalDirSize s)
    (fileSelectionSize s) (g_bNewFileRenamed s) (g_iRenamedItem s)
    (directives s).

Definition with_listView (l : list LVITEM) (s : State) : State :=
  mkState (m_uniqueFolderId s) (m_itemInfoMap s) (m_itemIDCounter s) l
    (awaitingAddList s) (m_FilesAdded s) (m_DroppedFileNameList s)
    (m_FileSelectionList s) (m_AlteredList s) (totalDirSize s)
    (fileSelectionSize s) (g_bNewFileRenamed s) (g_iRenamedItem s)
    (directives s).

Definition with_awaitingAddList (l : list AwaitingAdd_t) (s : State) : State :=
  mkState (m_uniqueFolderId s) (m_itemInfoMap s) (m_itemIDCounter s)
    (listView s) l (m_FilesAdded s) (m_DroppedFileNameList s)
    (m_FileSelectionList s) (m_AlteredList s) (totalDirSize s)
    (fileSelectionSize s) (g_bNewFileRenamed s) (g_iRenamedItem s)
    (directives s).

Definition with_FilesAdded (l : list string) (s : State) : State :=
  mkState (m_uniqueFolderId s) (m_itemInfoMap s) (m_itemIDCounter s)
    (listView s) (awaitingAddList s) l (m_DroppedFileNameList s)
    (m_FileSelectionList s) (m_AlteredList s) (totalDirSize s)
    (fileSelectionSize s) (g_bNewFileRenamed s) (g_iRenamedItem s)
    (directives s).

Definition with_FileSelectionList (l : list string) (s : State) : State :=
  mkState (m_uniqueFolderId s) (m_itemInfoMap s) (m_itemIDCounter s)
    (listView s) (awaitingAddList s) (m_FilesAdded s)
    (m_DroppedFileNameList s) l (m_AlteredList s) (totalDirSize s)
    (fileSelectionSize s) (g_bNewFileRenamed s) (g_iRenamedItem s)
    (directives s).

Definition with_AlteredList (l : list AlteredFile_t) (s : State) : State :=
  mkState (m_uniqueFolderId s) (m_itemInfoMap s) (m_itemIDCounter s)
    (listView s) (awaitingAddList s) (m_FilesAdded s)
    (m_DroppedFileNameList s) (m_FileSelectionList s) l (totalDirSize s)
    (fileSelectionSize s) (g_bNewFileRenamed s) (g_iRenamedItem s)
    (directives s).

Definition with_totalDirSize (z : Z) (s : State) : State :=
  mkState (m_uniqueFolderId s) (m_itemInfoMap s) (m_itemIDCounter s)
    (listView s) (awaitingAddList s) (m_FilesAdded s)
    (m_DroppedFileNameList s) (m_FileSelectionList s) (m_AlteredList s) z
    (fileSelectionSize s) (g_bNewFileRenamed s) (g_iRenamedItem s)
    (directives s).

Definition with_fileSelectionSize (z : Z) (s : State) : State :=
  mkState (m_uniqueFolderId s) (m_itemInfoMap s) (m_itemIDCounter s)
    (listView s) (awaitingAddList s) (m_FilesAdded s)
    (m_DroppedFileNameList s) (m_FileSelectionList s) (m_AlteredList s)
    (totalDirSize s) z (g_bNewFileRenamed s) (g_iRenamedItem s)
    (directives s).

Definition with_bNewFileRenamed (b : bool) (s : State) : State :=
  mkState (m_uniqueFolderId s) (m_itemInfoMap s) (m_itemIDCounter s)
    (listView s) (awaitingAddList s) (m_FilesAdded s)
    (m_DroppedFileNameList s) (m_FileSelectionList s) (m_AlteredList s)
    (totalDirSize s) (fileSelectionSize s) b (g_iRenamedItem s)
    (directives s).

Definition with_iRenamedItem (z : Z) (s : State) : State :=
  mkState (m_uniqueFolderId s) (m_itemInfoMap s) (m_itemIDCounter s)
    (listView s) (awaitingAddList s) (m_FilesAdded s)
    (m_DroppedFileNameList s) (m_FileSelectionList s) (m_AlteredList s)
    (totalDirSize s) (fileSelectionSize s) (g_bNewFileRenamed s) z
    (directives s).

Definition emit (d : Directive) (s : State) : State :=
  mkState (m_uniqueFolderId s) (m_itemInfoMap s) (m_itemIDCounter s)
    (listView s) (awaitingAddList s) (m_FilesAdded s)
    (m_DroppedFileNameList s) (m_FileSelectionList s) (m_AlteredList s)
    (totalDirSize s) (fileSelectionSize s) (g_bNewFileRenamed s)
    (g_iRenamedItem s) (directives s ++ [d]).

(** ** 64-bit sizes *)

Definition wrap64 (z : Z) : Z := z mod 2 ^ 64.

(** [ULARGE_INTEGER]: [LowPart] and [HighPart] read as [QuadPart]. *)
Definition QuadPart (LowPart HighPart : Z) : Z := HighPart * 2 ^ 32 + LowPart.

Definition FileSize (w : WIN32_FIND_DATA) : Z :=
  QuadPart (nFileSizeLow w) (nFileSizeHigh w).

Definition ItemSize (i : ItemInfo_t) : Z := FileSize (wfd i).

(** [StringCchCopy] into a [TCHAR] buffer of [MAX_PATH] characters. *)
Definition StringCchCopy (src : string) : string :=
  if (String.length src <? MAX_PATH)%nat then src
  else substring 0 (MAX_PATH - 1) src.

(** ** List helpers *)

(** [std::list::erase] at the first element equal to [name]. *)
Fixpoint erase_first (name : string) (l : list string) : list string :=
  match l with
  | [] => []
  | x :: l' => if String.eqb name x then l' else x :: erase_first name l'
  end.

Definition contains (name : string) (l : list string) : bool :=
  existsb (String.eqb name) l.

(** Insertion of a row at a position, clamped to the length of the list. *)
Definition insert_at {A} (pos : nat) (x : A) (l : list A) : list A :=
  take pos l ++ x :: drop pos l.

(** ** List view queries *)

Definition ListView_GetItem (lv : list LVITEM) (index : Z) : option LVITEM :=
  if index <? 0 then None else lv !! Z.to_nat index.

(** [ListView_GetItemState (..., LVIS_SELECTED) == LVIS_SELECTED]; no row,
    no state. *)
Definition ListView_IsSelected (lv : list LVITEM) (index : Z) : bool :=
  match ListView_GetItem lv index with
  | Some r => lvis_selected r
  | None => false
  end.

Definition set_cut (b : bool) (r : LVITEM) : LVITEM :=
  mkLv (lParam r) (lvis_selected r) b.

(** [ListView_SetItemState (..., LVIS_CUT)]: index [-1] addresses every
    row. *)
Definition ListView_SetCut (lv : list LVITEM) (index : Z) (b : bool)
  : list LVITEM :=
  if index =? -1 then map (set_cut b) lv
  else if index <? 0 then lv
  else alter (set_cut b) (Z.to_nat index) lv.

Definition LocateItemByInternalIndex (s : State) (id : Z) : option nat :=
  fst <$> list_find (fun r => lParam r = id) (listView s).

(** ** The handlers *)

(** Settings and helpers of the shell browser that live outside this file
    and are taken as they come: the "insert sorted" setting, the sort
    position and sort order of the list view, the active filter, and the
    conversion of a file name to a simple pidl (which, with the path copy
    and [PathAppend] before it, may fail). *)
Record Env := mkEnv {
  insertSorted : bool;
  DetermineItemSortedPosition : gmap Z ItemInfo_t -> list LVITEM -> Z -> Z;
  ListView_SortItems : gmap Z ItemInfo_t -> list LVITEM -> list LVITEM;
  IsFileFiltered : ItemInfo_t -> bool;
  CreateSimplePidl : string -> option string
}.

Section Handlers.

Variable E : Env.

(** Modelled from the spec: [GetItemInformation] is not in the source file.
    "re-resolve name against the filesystem to obtain fresh metadata": the
    item built for a name holds what the file system has for that name, and
    the name it was parsed from as its pidl. *)
Definition GetItemInformation (fs : FS) (name : string) : option ItemInfo_t :=
  match fs name with
  | Some w => Some (mkItemInfo name w)
  | None => None
  end.

(** Modelled from the spec: [LocateFileItemInternalIndex] is not in the
    source file.  "locate the item by name in ItemStore": the id of an item
    of [m_itemInfoMap] with that file name, [-1] if there is none. *)
Definition LocateFileItemInternalIndex (s : State) (name : string) : Z :=
  match find (fun e => String.eqb (cFileName (wfd (snd e))) name)
             (map_to_list (m_itemInfoMap s)) with
  | Some e => fst e
  | None => -1
  end.

(** Modelled from the spec: [LocateFileItemIndex] is not in the source file.
    The two queries [locateByName] and [locateByInternalId] in sequence: the
    row of the list view that shows the item of that name, [-1] if the name
    is unknown or the item has no row. *)
Definition LocateFileItemIndex (s : State) (name : string) : Z :=
  let id := LocateFileItemInternalIndex s name in
  if id =? -1 then -1
  else match LocateItemByInternalIndex s id with
       | Some i => Z.of_nat i
       | None => -1
       end.

(** Modelled from the spec: [GetItemInternalIndexForPidl] is not in the
    source file.  "resolve name to an internalId via ItemStore lookup". *)
Definition GetItemInternalIndexForPidl (s : State) (pidl : string)
  : option Z :=
  fst <$> find (fun e => String.eqb (pidlComplete (snd e)) pidl)
               (map_to_list (m_itemInfoMap s)).

(** Modelled from the spec: [AddItemInternal] is not in the source file.
    "construct an Item, assign a fresh internalId, insert into ItemStore ...
    Queue the id for presentation insertion"; the directory size grows with
    the item (Aggregate Tracker [add]).  Called with position [-1] and
    [bPosition = FALSE]. *)
Definition AddItemInternal (s : State) (info : ItemInfo_t)
  : State * option Z :=
  let id := m_itemIDCounter s in
  let s1 := with_itemInfoMap (<[id := info]> (m_itemInfoMap s)) s in
  let s2 := with_itemIDCounter (id + 1) s1 in
  let s3 := with_awaitingAddList
              (awaitingAddList s2 ++ [mkAwaiting (-1) id false (-1)]) s2 in
  let s4 := with_totalDirSize (wrap64 (totalDirSize s3 + ItemSize info)) s3 in
  (s4, Some id).

(** One awaiting item becomes a row: at its position when it has one, at
    the end otherwise. *)
Definition InsertAwaitingItem (s : State) (a : AwaitingAdd_t) : State :=
  let pos := if bPosition a then Z.to_nat (iItem a)
             else length (listView s) in
  emit (LvInsertItem (iItemInternal a) (Nat.min pos (length (listView s))))
    (with_listView
       (insert_at pos (mkLv (iItemInternal a) false false) (listView s)) s).

(** Modelled from the spec: [InsertAwaitingItems] is not in the source
    file.  "flushes AwaitingInsert into one grouped presentation-insert
    call": every awaiting item gets its row and the awaiting list is left
    empty. *)
Definition InsertAwaitingItems (s : State) : State :=
  with_awaitingAddList [] (fold_left InsertAwaitingItem (awaitingAddList s) s).

(** The [std::find_if] on the awaiting list followed by the three
    assignments through the iterator. *)
Fixpoint SetAwaitingPosition (itemId sortedPosition : Z)
    (l : list AwaitingAdd_t) : list AwaitingAdd_t :=
  match l with
  | [] => []
  | a :: l' =>
      if iItemInternal a =? itemId
      then mkAwaiting sortedPosition (iItemInternal a) true
             (sortedPosition - 1) :: l'
      else a :: SetAwaitingPosition itemId sortedPosition l'
  end.

(** [SHParseDisplayName] and [SHBindToParent] succeed, and the item can be
    built, exactly when the file system has the name. *)
Definition OnFileAdded (fs : FS) (s : State) (szFileName : string) : State :=
  match GetItemInformation fs szFileName with
  | Some info =>
      let bDropped := contains szFileName (m_DroppedFileNameList s) in
      let '(s1, itemId) := AddItemInternal s info in
      let s2 :=
        match itemId with
        | Some id =>
            if insertSorted E && negb bDropped then
              let sortedPosition :=
                DetermineItemSortedPosition E (m_itemInfoMap s1) (listView s1) id
              in with_awaitingAddList
                   (SetAwaitingPosition id sortedPosition (awaitingAddList s1))
                   s1
            else s1
        | None => s1
        end in
      InsertAwaitingItems s2
  | None =>
      with_FilesAdded (m_FilesAdded s ++ [StringCchCopy szFileName]) s
  end.

(** Modelled from the spec: [RemoveItem] is not in the source file.
    "subtract its size from both counters as appropriate and delete it from
    ItemStore, queueing a presentation removal". *)
Definition RemoveItem (s : State) (id : Z) : State :=
  match m_itemInfoMap s !! id with
  | None => s
  | Some info =>
      let s1 := with_totalDirSize (wrap64 (totalDirSize s - ItemSize info)) s in
      let s2 :=
        match LocateItemByInternalIndex s1 id with
        | Some i =>
            let s' :=
              if ListView_IsSelected (listView s1) (Z.of_nat i)
              then with_fileSelectionSize
                     (wrap64 (fileSelectionSize s1 - ItemSize info)) s1
              else s1 in
            with_listView (delete i (listView s')) s'
        | None => s1
        end in
      emit (LvDeleteItem id)
        (with_itemInfoMap (delete id (m_itemInfoMap s2)) s2)
  end.

Definition OnFileRemoved (s : State) (szFileName : string) : State :=
  if contains szFileName (m_FilesAdded s) then
    with_FilesAdded (erase_first szFileName (m_FilesAdded s)) s
  else
    let iItemInternal := LocateFileItemInternalIndex s szFileName in
    if iItemInternal =? -1 then s else RemoveItem s iItemInternal.

(** The loop over the awaiting list in [OnFileModified]; [.at] throws on an
    id that is not in the map. *)
Fixpoint SearchAwaiting (m : gmap Z ItemInfo_t) (l : list AwaitingAdd_t)
    (FileName : string) : option Z :=
  match l with
  | [] => Some (-1)
  | a :: l' =>
      match m !! iItemInternal a with
      | None => None
      | Some info =>
          if String.eqb (cFileName (wfd info)) FileName
          then Some (iItemInternal a)
          else SearchAwaiting m l' FileName
      end
  end.

Definition zero_size (i : ItemInfo_t) : ItemInfo_t :=
  mkItemInfo (pidlComplete i)
    (mkWfd (dwFileAttributes (wfd i)) 0 0 (cFileName (wfd i))).

(** The first half of [OnFileModified]: the internal id of the item to
    update, from the awaiting list when the name has no row, from the
    [lParam] of its row otherwise; [-1] when there is none. *)
Definition LocateModifiedItem (s : State) (FileName : string) : option Z :=
  let iItem := LocateFileItemIndex s FileName in
  if iItem =? -1
  then SearchAwaiting (m_itemInfoMap s) (awaitingAddList s) FileName
  else Some (match ListView_GetItem (listView s) iItem with
             | Some r => lParam r
             | None => -1
             end).

Definition OnFileModified (fs : FS) (s : State) (FileName : string)
  : option State :=
  let iItem := LocateFileItemIndex s FileName in
  match LocateModifiedItem s FileName with
  | None => None
  | Some iItemInternal =>
      if iItemInternal =? -1 then Some s
      else
        match m_itemInfoMap s !! iItemInternal with
        | None => None
        | Some info =>
            let s1 :=
              with_totalDirSize (wrap64 (totalDirSize s - ItemSize info)) s in
            let s2 :=
              if ListView_IsSelected (listView s1) iItem
              then with_fileSelectionSize
                     (wrap64 (fileSelectionSize s1 - ItemSize info)) s1
              else s1 in
            match fs FileName with
            | Some w =>
                let s3 :=
                  with_itemInfoMap
                    (<[iItemInternal := mkItemInfo (pidlComplete info) w]>
                       (m_itemInfoMap s2)) s2 in
                let s4 :=
                  with_totalDirSize (wrap64 (totalDirSize s3 + FileSize w)) s3
                in
                let s5 :=
                  if ListView_IsSelected (listView s4) iItem
                  then with_fileSelectionSize
                         (wrap64 (fileSelectionSize s4 + FileSize w)) s4
                  else s4 in
                Some (with_listView
                        (ListView_SetCut (listView s5) iItem
                           (Z.land (dwFileAttributes w) FILE_ATTRIBUTE_HIDDEN
                            =? FILE_ATTRIBUTE_HIDDEN)) s5)
            | None =>
                Some (with_itemInfoMap
                        (<[iItemInternal := zero_size info]>
                           (m_itemInfoMap s2)) s2)
            end
        end
  end.

Definition OnFileRenamedOldName (s : State) (szFileName : string) : State :=
  if contains szFileName (m_FilesAdded s) then
    with_FilesAdded (erase_first szFileName (m_FilesAdded s))
      (with_bNewFileRenamed true s)
  else
    match CreateSimplePidl E szFileName with
    | None => s
    | Some pidl =>
        match GetItemInternalIndexForPidl s pidl with
        | Some internalIndex => with_iRenamedItem internalIndex s
        | None => s
        end
    end.

(** Modelled from the spec: [UnfilterItem] is not in the source file.  "it
    must be revealed (inserted into the presentation list)". *)
Definition UnfilterItem (s : State) (id : Z) : State :=
  emit (LvInsertItem id (length (listView s)))
    (with_listView (listView s ++ [mkLv id false false]) s).

(** Modelled from the spec: [RemoveFilteredItem] is not in the source file.
    "it must be removed from the presentation list (but kept in ItemStore is
    not required -- it is evicted)": the row is deleted and the item is taken
    out of the map.  The spec names no update of the counters for this
    step, and none is made. *)
Definition RemoveFilteredItem (s : State) (itemIndex : nat) (id : Z) : State :=
  emit (LvDeleteItem id)
    (with_itemInfoMap (delete id (m_itemInfoMap s))
       (with_listView (delete itemIndex (listView s)) s)).

Definition RenameItem (fs : FS) (s : State) (internalIndex : Z)
    (szNewFileName : string) : State :=
  if internalIndex =? -1 then s
  else
    match GetItemInformation fs szNewFileName with
    | None => s
    | Some itemInfo =>
        let s1 :=
          with_itemInfoMap (<[internalIndex := itemInfo]> (m_itemInfoMap s)) s
        in
        match LocateItemByInternalIndex s1 internalIndex with
        | None =>
            if negb (IsFileFiltered E itemInfo)
            then UnfilterItem s1 internalIndex
            else s1
        | Some itemIndex =>
            if IsFileFiltered E itemInfo
            then RemoveFilteredItem s1 itemIndex internalIndex
            else with_listView
                   (ListView_SortItems E (m_itemInfoMap s1) (listView s1)) s1
        end
    end.

Definition OnFileRenamedNewName (fs : FS) (s : State) (szFileName : string)
  : State :=
  if g_bNewFileRenamed s then
    with_bNewFileRenamed false (OnFileAdded fs s szFileName)
  else RenameItem fs s (g_iRenamedItem s) szFileName.

(** ** The batch *)

(** [FilesModified]: one notification is copied into the queue. *)
Definition FilesModified (Action : Z) (FileName : string) (folderIndex : Z)
    (s : State) : State :=
  with_AlteredList
    (m_AlteredList s ++ [mkAltered (StringCchCopy FileName) Action folderIndex])
    s.

(** The body of the loop over [m_AlteredList]. *)
Definition ProcessAlteredFile (fs : FS) (s : State) (af : AlteredFile_t)
  : option State :=
  if iFolderIndex af =? m_uniqueFolderId s then
    if dwAction af =? FILE_ACTION_ADDED then
      Some (OnFileAdded fs s (szFileName af))
    else if dwAction af =? FILE_ACTION_MODIFIED then
      OnFileModified fs s (szFileName af)
    else if dwAction af =? FILE_ACTION_REMOVED then
      Some (OnFileRemoved s (szFileName af))
    else if dwAction af =? FILE_ACTION_RENAMED_OLD_NAME then
      Some (OnFileRenamedOldName s (szFileName af))
    else if dwAction af =? FILE_ACTION_RENAMED_NEW_NAME then
      Some (OnFileRenamedNewName fs s (szFileName af))
    else Some s
  else Some s.

(** The loop: the [k]-th notification of the batch sees the file system
    [fss k]. *)
Fixpoint ApplyAlteredList (fss : nat -> FS) (k : nat)
    (l : list AlteredFile_t) (s : State) : option State :=
  match l with
  | [] => Some s
  | af :: l' =>
      match ProcessAlteredFile (fss k) s af with
      | None => None
      | Some s' => ApplyAlteredList fss (S k) l' s'
      end
  end.

(** Modelled from the spec: [ListViewHelper::SelectItem] is not in the
    source file.  The row becomes selected; the selection size must equal
    the sizes of the selected items, so a row that was not selected brings
    its size in (Aggregate Tracker [add]). *)
Definition SelectItem (s : State) (index : Z) : State :=
  match ListView_GetItem (listView s) index with
  | None => s
  | Some r =>
      let s1 :=
        if lvis_selected r then s
        else match m_itemInfoMap s !! lParam r with
             | Some info =>
                 with_fileSelectionSize
                   (wrap64 (fileSelectionSize s + ItemSize info)) s
             | None => s
             end in
      emit (LvSelectItem index)
        (with_listView
           (<[Z.to_nat index := mkLv (lParam r) true (lvis_cut r)]>
              (listView s1)) s1)
  end.

(** The [while] loop over [m_FileSelectionList]: the state after it, and the
    names left in the list. *)
Fixpoint SelectFiles (s : State) (names : list string) (bFocusSet : bool)
  : State * list string :=
  match names with
  | [] => (s, [])
  | name :: rest =>
      let iIndex := LocateFileItemIndex s name in
      if iIndex =? -1 then
        let '(s', kept) := SelectFiles s rest bFocusSet in (s', name :: kept)
      else
        let s1 := SelectItem s iIndex in
        let s2 := if bFocusSet then s1
                  else emit (LvEnsureVisible iIndex)
                         (emit (LvFocusItem iIndex) s1) in
        SelectFiles s2 rest true
  end.

(** What [DirectoryAltered] does after the loop: the queue is cleared and
    the names of [m_FileSelectionList] that have a row are selected and
    taken off the list. *)
Definition FinishBatch (s1 : State) : State :=
  let s2 := with_AlteredList [] s1 in
  let '(s3, kept) := SelectFiles s2 (m_FileSelectionList s2) false in
  with_FileSelectionList kept s3.

Definition DirectoryAltered (fss : nat -> FS) (s : State) : option State :=
  match ApplyAlteredList fss 0 (m_AlteredList s) s with
  | None => None
  | Some s1 => Some (FinishBatch s1)
  end.

End Handlers.

(** ** What the counters are meant to hold *)

(** The sum of the sizes of all items of the map. *)
Definition DirectorySize (m : gmap Z ItemInfo_t) : Z :=
  map_fold (fun _ i acc => ItemSize i + acc) 0 m.

(** What a row contributes to the selection: the size of its item when the
    row is selected. *)
Definition RowSize (m : gmap Z ItemInfo_t) (r : LVITEM) : Z :=
  if lvis_selected r
  then match m !! lParam r with Some i => ItemSize i | None => 0 end
  else 0.

(** The sum of the sizes of the items whose row is selected. *)
Definition SelectionSize (m : gmap Z ItemInfo_t) (lv : list LVITEM) : Z :=
  foldr (fun r acc => RowSize m r + acc) 0 lv.

(** The items of the map that carry a given file name. *)
Definition ItemsNamed (name : string) (m : gmap Z ItemInfo_t)
  : gmap Z ItemInfo_t :=
  filter (fun e => cFileName (wfd (snd e)) = name) m.

(** The state between two notifications: rows show distinct items of the
    map, ids are non-negative and below the id counter, nothing waits for
    insertion, and the two counters hold the sums they stand for. *)
Record Consistent (s : State) : Prop := mkConsistent {
  rows_distinct : NoDup (lParam <$> listView s);
  rows_known : forall r, r ∈ listView s -> is_Some (m_itemInfoMap s !! lParam r);
  counter_nonneg : 0 <= m_itemIDCounter s;
  ids_bounded :
    forall k i, m_itemInfoMap s !! k = Some i -> 0 <= k < m_itemIDCounter s;
  nothing_awaiting : awaitingAddList s = [];
  total_sum : totalDirSize s = wrap64 (DirectorySize (m_itemInfoMap s));
  selection_sum :
    fileSelectionSize s
    = wrap64 (SelectionSize (m_itemInfoMap s) (listView s))
}.

(** The three kinds of notification of an add / modify / remove batch. *)
Definition AddModifyRemove (af : AlteredFile_t) : Prop :=
  dwAction af = FILE_ACTION_ADDED \/ dwAction af = FILE_ACTION_MODIFIED
  \/ dwAction af = FILE_ACTION_REMOVED.

Definition is_select (d : Directive) : bool :=
  match d with LvSelectItem _ => true | _ => false end.

Definition is_focus (d : Directive) : bool :=
  match d with LvFocusItem _ => true | _ => false end.

(** ** Sample data *)

(** A setting with sorted insertion at the end of the list, no filter, and a
    pidl for every name. *)
Definition env0 : Env :=
  mkEnv true (fun _ lv _ => Z.of_nat (length lv)) (fun _ lv => lv)
    (fun _ => false) (fun name => Some name).

(** A freshly opened, empty directory with folder id 1. *)
Definition empty_directory : State :=
  mkState 1 ∅ 0 [] [] [] [] [] [] 0 0 false (-1) [].

Definition plain_file (name : string) (size : Z) : WIN32_FIND_DATA :=
  mkWfd 32 0 size name.

Definition no_files : FS := fun _ => None.

Definition one_file (name : string) (size : Z) : FS :=
  fun n => if String.eqb n name then Some (plain_file name size) else None.

Definition queue (l : list AlteredFile_t) (s : State) : State :=
  with_AlteredList l s.

Definition Added (name : string) : AlteredFile_t :=
  mkAltered name FILE_ACTION_ADDED 1.
Definition Modified (name : string) : AlteredFile_t :=
  mkAltered name FILE_ACTION_MODIFIED 1.
Definition Removed (name : string) : AlteredFile_t :=
  mkAltered name FILE_ACTION_REMOVED 1.
Definition RenamedFrom (name : string) : AlteredFile_t :=
  mkAltered name FILE_ACTION_RENAMED_OLD_NAME 1.
Definition RenamedTo (name : string) : AlteredFile_t :=
  mkAltered name FILE_ACTION_RENAMED_NEW_NAME 1.

(** The file system seen by each notification of a batch, given as a list;
    past its end nothing exists. *)
Definition fs_seq (l : list FS) : nat -> FS :=
  fun k => nth k l no_files.

(** The fields that only the handlers of this file write: the folder id,
    the three name lists, the queue and the two rename globals. *)
Definition SameBookkeeping (s s' : State) : Prop :=
  m_uniqueFolderId s' = m_uniqueFolderId s
  /\ m_FilesAdded s' = m_FilesAdded s
  /\ m_DroppedFileNameList s' = m_DroppedFileNameList s
  /\ m_FileSelectionList s' = m_FileSelectionList s
  /\ m_AlteredList s' = m_AlteredList s
  /\ g_bNewFileRenamed s' = g_bNewFileRenamed s
  /\ g_iRenamedItem s' = g_iRenamedItem s.

(** Whether the item has a row and that row is selected. *)
Definition RowSelected (s : State) (id : Z) : bool :=
  match LocateItemByInternalIndex s id with
  | Some n => ListView_IsSelected (listView s) (Z.of_nat n)
  | None => false
  end.

(** Two states with the same items under the same ids and the same rows in
    the same order (state bits of the rows aside): every lookup by name or
    by id answers the same in both. *)
Definition SameItems (s s' : State) : Prop :=
  m_itemInfoMap s' = m_itemInfoMap s
  /\ lParam <$> listView s' = lParam <$> listView s.

Definition unresolved (s : State) (name : string) : bool :=
  LocateFileItemIndex s name =? -1.

Definition resolved (s : State) (name : string) : bool :=
  negb (unresolved s name).

(** A directory that was empty and has seen the add of one file. *)
Definition directory_with (name : string) (size : Z) : State :=
  OnFileAdded env0 (one_file name size) empty_directory name.

(** The same directory watched again later, under folder id 2. *)
Definition reopened_directory : State :=
  mkState 2 ∅ 0 [] [] [] [] [] [] 0 0 false (-1) [].

(** What the examples look at in the state a batch returns. *)
Definition marker_after (r : option State) : option Z :=
  g_iRenamedItem <$> r.

Definition pending_after (r : option State) : option (list string) :=
  m_FilesAdded <$> r.

Definition names_after (r : option State) : option (list (Z * string)) :=
  (fun s => (fun e => (fst e, cFileName (wfd (snd e))))
              <$> map_to_list (m_itemInfoMap s)) <$> r.

Definition sizes_after (r : option State) : option (Z * Z) :=
  (fun s => (totalDirSize s, DirectorySize (m_itemInfoMap s))) <$> r.

(** ** The timer and the column invalidation *)

(** What the watcher hands to [FilesModified]. *)
Record Notification := mkNotification {
  note_action : Z;
  note_name : string;
  note_folder : Z
}.

(** The timers armed on the owner window, by id.  [SetTimer] with the id of
    an armed timer replaces that timer. *)
Definition SetTimer (nIDEvent : Z) (timers : gset Z) : gset Z :=
  {[nIDEvent]} ∪ timers.

Definition KillTimer (nIDEvent : Z) (timers : gset Z) : gset Z :=
  timers ∖ {[nIDEvent]}.

(** An [int] passed where a [UINT_PTR] is expected: the value modulo
    [2^64], so a negative [i] becomes [2^64 + i]. *)
Definition UINT_PTR_of_int (i : Z) : Z := i mod 2 ^ 64.

(** [FilesModified] with the [SetTimer] call it starts with; the [int]
    event id is converted to the [UINT_PTR] timer id. *)
Definition FilesModifiedArmed (EventId : Z) (p : gset Z * State)
    (n : Notification) : gset Z * State :=
  (SetTimer (UINT_PTR_of_int EventId) (fst p),
   FilesModified (note_action n) (note_name n) (note_folder n) (snd p)).

(** [TimerProc], called with the [UINT_PTR] id of the timer that fired: the
    timer is killed and [WM_USER_FILESADDED] is sent with the timer id. *)
Definition TimerProc (idEvent : Z) (timers : gset Z) : gset Z * Z :=
  (KillTimer idEvent timers, idEvent).

Record Column_t := mkColumn {
  column_type : Z;
  bChecked : bool
}.

(** [InvalidateAllColumnsForItem]: the calls
    [ListView_SetItemText (itemIndex, i, LPSTR_TEXTCALLBACK)] it makes, as
    pairs of item and sub-item index. *)
Definition InvalidateAllColumnsForItem (detailsView : bool)
    (activeColumns : list Column_t) (itemIndex : Z) : list (Z * Z) :=
  if negb detailsView then []
  else
    let numColumns := length (List.filter bChecked activeColumns) in
    map (fun i => (itemIndex, Z.of_nat i)) (seq 0 numColumns).

(** The fields no handler writes, and the id counter, which only grows. *)
Definition Frame (s s' : State) : Prop :=
  m_uniqueFolderId s' = m_uniqueFolderId s
  /\ m_DroppedFileNameList s' = m_DroppedFileNameList s
  /\ m_FileSelectionList s' = m_FileSelectionList s
  /\ m_AlteredList s' = m_AlteredList s
  /\ m_itemIDCounter s <= m_itemIDCounter s'.

(** An awaiting item that is in the map under another file name. *)
Definition OtherAwaiting (m : gmap Z ItemInfo_t) (name : string)
    (a : AwaitingAdd_t) : Prop :=
  exists info, m !! iItemInternal a = Some info /\ cFileName (wfd info) <> name.

(** * Properties *)

(** ** Arithmetic of the 64-bit counters *)

Lemma wrap64_sub_l (a b : Z) : wrap64 (wrap64 a - b) = wrap64 (a - b).
Proof. unfold wrap64. apply Zminus_mod_idemp_l. Qed.

Lemma wrap64_add_l (a b : Z) : wrap64 (wrap64 a + b) = wrap64 (a + b).
Proof. unfold wrap64. apply Zplus_mod_idemp_l. Qed.

Lemma wrap64_sub_add_l (a b c : Z) :
  wrap64 (wrap64 a - b + c) = wrap64 (a - b + c).
Proof.
  replace (wrap64 a - b + c) with (wrap64 a + (c - b)) by lia.
  rewrite wrap64_add_l. f_equal. lia.
Qed.

Lemma wrap64_small (a : Z) : 0 <= a < 2 ^ 64 -> wrap64 a = a.
Proof. unfold wrap64. apply Z.mod_small. Qed.

(** ** The sum over the map *)

Lemma DirectorySize_empty : DirectorySize ∅ = 0.
Proof. unfold DirectorySize. apply map_fold_empty. Qed.

Lemma DirectorySize_insert_fresh (m : gmap Z ItemInfo_t) k i :
  m !! k = None ->
  DirectorySize (<[k := i]> m) = ItemSize i + DirectorySize m.
Proof.
  intros Hk. unfold DirectorySize.
  rewrite map_fold_insert_L; [reflexivity | | exact Hk].
  intros; lia.
Qed.

Lemma DirectorySize_delete (m : gmap Z ItemInfo_t) k i :
  m !! k = Some i ->
  DirectorySize (delete k m) = DirectorySize m - ItemSize i.
Proof.
  intros Hk.
  rewrite <- (insert_delete_id m k i Hk) at 2.
  rewrite DirectorySize_insert_fresh by apply lookup_delete_eq. lia.
Qed.

Lemma DirectorySize_update (m : gmap Z ItemInfo_t) k i i' :
  m !! k = Some i ->
  DirectorySize (<[k := i']> m) = DirectorySize m - ItemSize i + ItemSize i'.
Proof.
  intros Hk.
  rewrite <- (insert_delete_eq m k i').
  rewrite DirectorySize_insert_fresh by apply lookup_delete_eq.
  rewrite (DirectorySize_delete m k i Hk). lia.
Qed.

(** ** The sum over the selected rows *)

Lemma SelectionSize_app m (l1 l2 : list LVITEM) :
  SelectionSize m (l1 ++ l2) = SelectionSize m l1 + SelectionSize m l2.
Proof.
  induction l1 as [|r l1 IH]; simpl; [reflexivity|].
  unfold SelectionSize in *. simpl. rewrite IH. lia.
Qed.

Lemma SelectionSize_cons m r (l : list LVITEM) :
  SelectionSize m (r :: l) = RowSize m r + SelectionSize m l.
Proof. reflexivity. Qed.

Lemma SelectionSize_ext (m m' : gmap Z ItemInfo_t) (lv : list LVITEM) :
  (forall r, r ∈ lv -> m' !! lParam r = m !! lParam r) ->
  SelectionSize m' lv = SelectionSize m lv.
Proof.
  induction lv as [|r lv IH]; intros H; [reflexivity|].
  rewrite !SelectionSize_cons. rewrite IH.
  - unfold RowSize. rewrite (H r) by apply list_elem_of_here. reflexivity.
  - intros r' Hr'. apply H. by apply list_elem_of_further.
Qed.

Lemma SelectionSize_insert_absent m k i (lv : list LVITEM) :
  k ∉ lParam <$> lv ->
  SelectionSize (<[k := i]> m) lv = SelectionSize m lv.
Proof.
  intros Hk. apply SelectionSize_ext. intros r Hr.
  apply lookup_insert_ne. intros ->. apply Hk.
  apply list_elem_of_fmap. by exists r.
Qed.

Lemma SelectionSize_delete_absent m k (lv : list LVITEM) :
  k ∉ lParam <$> lv ->
  SelectionSize (delete k m) lv = SelectionSize m lv.
Proof.
  intros Hk. apply SelectionSize_ext. intros r Hr.
  apply lookup_delete_ne. intros ->. apply Hk.
  apply list_elem_of_fmap. by exists r.
Qed.

(** A row splits the list view around itself. *)
Lemma row_split (lv : list LVITEM) n r :
  lv !! n = Some r ->
  lv = take n lv ++ r :: drop (S n) lv /\ delete n lv = take n lv ++ drop (S n) lv.
Proof.
  intros H. split.
  - symmetry. by apply take_drop_middle.
  - apply delete_take_drop.
Qed.

Lemma distinct_rows_elsewhere (lv : list LVITEM) n r :
  NoDup (lParam <$> lv) -> lv !! n = Some r ->
  lParam r ∉ lParam <$> (take n lv ++ drop (S n) lv).
Proof.
  intros Hnd Hn.
  destruct (row_split lv n r Hn) as [Heq _].
  rewrite Heq in Hnd. rewrite fmap_app, fmap_cons in Hnd.
  apply NoDup_app in Hnd as (_ & Hdisj & Hnd2).
  apply NoDup_cons in Hnd2 as [Hnotin _].
  rewrite fmap_app. intros Hin. apply elem_of_app in Hin as [Hin|Hin].
  - apply (Hdisj _ Hin). apply list_elem_of_here.
  - by apply Hnotin.
Qed.

Lemma SelectionSize_delete_row m (lv : list LVITEM) n r :
  lv !! n = Some r ->
  SelectionSize m (delete n lv) = SelectionSize m lv - RowSize m r.
Proof.
  intros Hn. destruct (row_split lv n r Hn) as [Heq Hdel].
  rewrite Hdel. rewrite Heq at 3.
  rewrite !SelectionSize_app, SelectionSize_cons. lia.
Qed.

Lemma SelectionSize_update m k i' (lv : list LVITEM) n r :
  NoDup (lParam <$> lv) -> lv !! n = Some r -> lParam r = k ->
  SelectionSize (<[k := i']> m) lv
  = SelectionSize m lv - RowSize m r + (if lvis_selected r then ItemSize i' else 0).
Proof.
  intros Hnd Hn Hk.
  pose proof (distinct_rows_elsewhere lv n r Hnd Hn) as Hout.
  destruct (row_split lv n r Hn) as [Heq _].
  rewrite Hk in Hout. rewrite fmap_app in Hout.
  rewrite Heq. rewrite !SelectionSize_app, !SelectionSize_cons.
  rewrite (SelectionSize_insert_absent m k i' (take n lv)).
  2:{ intros Hin. apply Hout. apply elem_of_app. by left. }
  rewrite (SelectionSize_insert_absent m k i' (drop (S n) lv)).
  2:{ intros Hin. apply Hout. apply elem_of_app. by right. }
  assert (RowSize (<[k := i']> m) r = if lvis_selected r then ItemSize i' else 0)
    as ->.
  { unfold RowSize. rewrite Hk, lookup_insert_eq. reflexivity. }
  lia.
Qed.

Lemma SelectionSize_insert_at m (lv : list LVITEM) pos id :
  SelectionSize m (insert_at pos (mkLv id false false) lv) = SelectionSize m lv.
Proof.
  unfold insert_at. rewrite SelectionSize_app, SelectionSize_cons.
  rewrite <- (take_drop pos lv) at 3. rewrite SelectionSize_app.
  unfold RowSize. simpl. lia.
Qed.

Lemma lParam_SetCut (lv : list LVITEM) index b :
  lParam <$> ListView_SetCut lv index b = lParam <$> lv.
Proof.
  unfold ListView_SetCut.
  destruct (index =? -1); [|destruct (index <? 0); [reflexivity|]].
  - rewrite <- list_fmap_compose. reflexivity.
  - generalize (Z.to_nat index) as n. induction lv as [|r lv IH]; intros n.
    + reflexivity.
    + destruct n; simpl; [reflexivity|]. f_equal. apply IH.
Qed.

Lemma SelectionSize_SetCut m (lv : list LVITEM) index b :
  SelectionSize m (ListView_SetCut lv index b) = SelectionSize m lv.
Proof.
  unfold ListView_SetCut.
  destruct (index =? -1); [|destruct (index <? 0); [reflexivity|]].
  - induction lv as [|r lv IH]; [reflexivity|].
    cbn [map]. rewrite !SelectionSize_cons, IH. reflexivity.
  - generalize (Z.to_nat index) as n. induction lv as [|r lv IH]; intros n.
    + reflexivity.
    + destruct n; cbn [alter list_alter].
      * rewrite !SelectionSize_cons. reflexivity.
      * rewrite !SelectionSize_cons. f_equal. apply IH.
Qed.

(** ** Lookups *)

Lemma LocateFileItemInternalIndex_found s name id :
  LocateFileItemInternalIndex s name = id -> id <> -1 ->
  exists i, m_itemInfoMap s !! id = Some i /\ cFileName (wfd i) = name.
Proof.
  unfold LocateFileItemInternalIndex.
  destruct (find _ _) as [[k i]|] eqn:Hf; simpl; intros <- Hne; [|done].
  apply find_some in Hf as [Hin Hname]. simpl in Hname.
  exists i. split.
  - apply elem_of_map_to_list. by apply list_elem_of_In.
  - by apply String.eqb_eq.
Qed.

Lemma LocateFileItemInternalIndex_hit s name k i :
  (forall k' i', m_itemInfoMap s !! k' = Some i' -> k' <> -1) ->
  m_itemInfoMap s !! k = Some i -> cFileName (wfd i) = name ->
  LocateFileItemInternalIndex s name <> -1.
Proof.
  intros Hids Hk Hname. unfold LocateFileItemInternalIndex.
  destruct (find _ _) as [[k' i']|] eqn:Hf; simpl.
  - apply find_some in Hf as [Hin _].
    apply list_elem_of_In, elem_of_map_to_list in Hin. eauto.
  - exfalso.
    assert (In (k, i) (map_to_list (m_itemInfoMap s))) as Hin.
    { apply list_elem_of_In, elem_of_map_to_list. exact Hk. }
    pose proof (find_none _ _ Hf _ Hin) as Hno. simpl in Hno.
    rewrite Hname, String.eqb_refl in Hno. discriminate.
Qed.

Lemma LocateFileItemInternalIndex_unknown s name :
  (forall k i, m_itemInfoMap s !! k = Some i -> cFileName (wfd i) <> name) ->
  LocateFileItemInternalIndex s name = -1.
Proof.
  intros Hno. unfold LocateFileItemInternalIndex.
  destruct (find _ _) as [[k i]|] eqn:Hf; [|reflexivity].
  apply find_some in Hf as [Hin Hname]. simpl in Hname.
  apply list_elem_of_In, elem_of_map_to_list in Hin.
  apply String.eqb_eq in Hname. by destruct (Hno k i Hin).
Qed.

Lemma LocateItemByInternalIndex_Some s id n :
  LocateItemByInternalIndex s id = Some n ->
  exists r, listView s !! n = Some r /\ lParam r = id.
Proof.
  unfold LocateItemByInternalIndex.
  destruct (list_find _ _) as [[n' r]|] eqn:Hf; simpl; [|done].
  intros [= <-]. apply list_find_Some in Hf as (Hn & Hid & _). eauto.
Qed.

Lemma LocateItemByInternalIndex_None s id :
  LocateItemByInternalIndex s id = None -> id ∉ lParam <$> listView s.
Proof.
  unfold LocateItemByInternalIndex.
  destruct (list_find _ _) as [[n' r]|] eqn:Hf; simpl; [done|].
  intros _ Hin. apply list_elem_of_fmap in Hin as (r & -> & Hr).
  apply list_find_None in Hf. rewrite Forall_forall in Hf.
  by apply (Hf r Hr).
Qed.

Lemma contains_true name l : contains name l = true <-> name ∈ l.
Proof.
  unfold contains. rewrite existsb_exists. split.
  - intros (x & Hin & Heq). apply String.eqb_eq in Heq as ->.
    by apply list_elem_of_In.
  - intros Hin. exists name. split; [by apply list_elem_of_In|].
    apply String.eqb_refl.
Qed.

(** ** Fields the list view and map helpers leave alone *)

Lemma SameBookkeeping_refl s : SameBookkeeping s s.
Proof. by repeat split. Qed.

Lemma SameBookkeeping_trans s1 s2 s3 :
  SameBookkeeping s1 s2 -> SameBookkeeping s2 s3 -> SameBookkeeping s1 s3.
Proof.
  unfold SameBookkeeping. intros (?&?&?&?&?&?&?) (?&?&?&?&?&?&?).
  repeat split; congruence.
Qed.

Lemma InsertAwaitingItems_fold_bookkeeping l s :
  SameBookkeeping s (fold_left InsertAwaitingItem l s).
Proof.
  revert s. induction l as [|a l IH]; intros s; simpl.
  - apply SameBookkeeping_refl.
  - eapply SameBookkeeping_trans; [|apply IH]. by repeat split.
Qed.

Lemma InsertAwaitingItems_bookkeeping s :
  SameBookkeeping s (InsertAwaitingItems s).
Proof.
  unfold InsertAwaitingItems.
  eapply SameBookkeeping_trans; [apply InsertAwaitingItems_fold_bookkeeping|].
  by repeat split.
Qed.

Lemma OnFileAdded_resolved_bookkeeping E fs s name w :
  fs name = Some w -> SameBookkeeping s (OnFileAdded E fs s name).
Proof.
  intros Hfs. unfold OnFileAdded, GetItemInformation. rewrite Hfs.
  cbn [AddItemInternal].
  eapply SameBookkeeping_trans; [|apply InsertAwaitingItems_bookkeeping].
  destruct (insertSorted E && negb _); by repeat split.
Qed.

Lemma RemoveItem_bookkeeping s id : SameBookkeeping s (RemoveItem s id).
Proof.
  unfold RemoveItem. destruct (m_itemInfoMap s !! id); [|apply SameBookkeeping_refl].
  destruct (LocateItemByInternalIndex _ _); [|by repeat split].
  destruct (ListView_IsSelected _ _); by repeat split.
Qed.

Lemma OnFileModified_bookkeeping fs s name s' :
  OnFileModified fs s name = Some s' -> SameBookkeeping s s'.
Proof.
  unfold OnFileModified.
  destruct (LocateModifiedItem s name) as [id|]; [|done].
  destruct (id =? -1); [intros [= <-]; apply SameBookkeeping_refl|].
  destruct (m_itemInfoMap s !! id) as [info|]; [|done].
  destruct (fs name); intros [= <-];
    repeat (match goal with |- context [if ?b then _ else _] => destruct b end);
    by repeat split.
Qed.

Lemma RenameItem_bookkeeping E fs s id name :
  SameBookkeeping s (RenameItem E fs s id name).
Proof.
  unfold RenameItem. destruct (id =? -1); [apply SameBookkeeping_refl|].
  destruct (GetItemInformation fs name) as [info|]; [|apply SameBookkeeping_refl].
  destruct (LocateItemByInternalIndex _ _).
  - destruct (IsFileFiltered E info); by repeat split.
  - destruct (negb _); by repeat split.
Qed.



Lemma GetItemInternalIndexForPidl_Some s pidl id :
  GetItemInternalIndexForPidl s pidl = Some id ->
  exists i, m_itemInfoMap s !! id = Some i /\ pidlComplete i = pidl.
Proof.
  unfold GetItemInternalIndexForPidl.
  destruct (find _ _) as [[k i]|] eqn:Hf; simpl; [|done].
  intros [= <-]. apply find_some in Hf as [Hin Hp]. simpl in Hp.
  exists i. split.
  - by apply elem_of_map_to_list, list_elem_of_In.
  - by apply String.eqb_eq.
Qed.

(** ** The folder id on a notification *)

(** C9.  A notification is handled only when its folder index equals
    [m_uniqueFolderId].  One that carries another index is skipped: the loop
    body returns the state it was given, with the map, the list of pending
    adds and both counters as they were, and the loop goes on with the next
    notification. *)
Theorem stale_notification_is_discarded E fss k af l s :
  iFolderIndex af <> m_uniqueFolderId s ->
  (forall fs, ProcessAlteredFile E fs s af = Some s)
  /\ ApplyAlteredList E fss k (af :: l) s = ApplyAlteredList E fss (S k) l s.
Proof.
  intros Hstale.
  assert (forall fs, ProcessAlteredFile E fs s af = Some s) as H.
  { intros fs. unfold ProcessAlteredFile.
    destruct (Z.eqb_spec (iFolderIndex af) (m_uniqueFolderId s)); [done|].
    reflexivity. }
  split; [exact H|]. cbn [ApplyAlteredList]. by rewrite H.
Qed.

(** ** A modification whose file is gone *)

(** C7.  When [OnFileModified] has located the item and the file can no
    longer be found, the old size of the item leaves the directory size (and
    the selection size, if the row is selected), the stored size becomes
    zero, nothing is added back, and the handler returns normally; rows,
    name lists and rename globals stay as they were. *)
Theorem Modified_of_vanished_file fs s name id info :
  LocateModifiedItem s name = Some id -> id <> -1 ->
  m_itemInfoMap s !! id = Some info ->
  fs name = None ->
  exists s',
    OnFileModified fs s name = Some s'
    /\ totalDirSize s' = wrap64 (totalDirSize s - ItemSize info)
    /\ fileSelectionSize s'
       = (if ListView_IsSelected (listView s) (LocateFileItemIndex s name)
          then wrap64 (fileSelectionSize s - ItemSize info)
          else fileSelectionSize s)
    /\ m_itemInfoMap s' = <[id := zero_size info]> (m_itemInfoMap s)
    /\ ItemSize (zero_size info) = 0
    /\ listView s' = listView s
    /\ directives s' = directives s
    /\ SameBookkeeping s s'.
Proof.
  intros Hloc Hid Hinfo Hfs. unfold OnFileModified.
  rewrite Hloc. destruct (Z.eqb_spec id (-1)) as [|_]; [done|].
  rewrite Hinfo, Hfs. eexists. split; [reflexivity|].
  cbn [listView with_totalDirSize].
  destruct (ListView_IsSelected _ _); by repeat split.
Qed.

(** ** Removal *)

Lemma RemoveItem_known s id info :
  m_itemInfoMap s !! id = Some info ->
  m_itemInfoMap (RemoveItem s id) = delete id (m_itemInfoMap s)
  /\ totalDirSize (RemoveItem s id) = wrap64 (totalDirSize s - ItemSize info)
  /\ fileSelectionSize (RemoveItem s id)
     = (if RowSelected s id
        then wrap64 (fileSelectionSize s - ItemSize info)
        else fileSelectionSize s)
  /\ listView (RemoveItem s id)
     = match LocateItemByInternalIndex s id with
       | Some n => delete n (listView s)
       | None => listView s
       end
  /\ directives (RemoveItem s id) = directives s ++ [LvDeleteItem id].
Proof.
  intros Hinfo. unfold RemoveItem, RowSelected. rewrite Hinfo.
  change (LocateItemByInternalIndex (with_totalDirSize _ s) id)
    with (LocateItemByInternalIndex s id).
  destruct (LocateItemByInternalIndex s id) as [n|]; [|by repeat split].
  cbn [listView with_totalDirSize].
  destruct (ListView_IsSelected _ _); by repeat split.
Qed.


(** ** Consistency is kept by add, modify and remove *)

(** A state that differs from a consistent one in fields the invariant does
    not read. *)
Ltac same_consistency :=
  match goal with
  | C : Consistent _ |- Consistent _ => destruct C; by constructor
  end.

Lemma insert_at_perm {A} pos (x : A) (l : list A) : insert_at pos x l ≡ₚ x :: l.
Proof.
  unfold insert_at. rewrite <- Permutation_middle.
  by rewrite take_drop.
Qed.

Lemma ListView_IsSelected_row (lv : list LVITEM) n r :
  lv !! n = Some r -> ListView_IsSelected lv (Z.of_nat n) = lvis_selected r.
Proof.
  intros H. unfold ListView_IsSelected, ListView_GetItem.
  destruct (Z.ltb_spec (Z.of_nat n) 0); [lia|].
  by rewrite Nat2Z.id, H.
Qed.

Lemma ListView_GetItem_Some (lv : list LVITEM) index r :
  ListView_GetItem lv index = Some r ->
  0 <= index /\ lv !! Z.to_nat index = Some r.
Proof.
  unfold ListView_GetItem. destruct (Z.ltb_spec index 0); [done|]. by split.
Qed.

Lemma Consistent_ids_valid s :
  Consistent s -> forall k i, m_itemInfoMap s !! k = Some i -> k <> -1.
Proof. intros C k i Hk. pose proof (ids_bounded s C k i Hk). lia. Qed.

Lemma Consistent_counter_fresh s :
  Consistent s -> m_itemInfoMap s !! m_itemIDCounter s = None.
Proof.
  intros C. destruct (m_itemInfoMap s !! m_itemIDCounter s) as [i|] eqn:H;
    [|reflexivity].
  pose proof (ids_bounded s C _ i H). lia.
Qed.

Lemma Consistent_counter_no_row s :
  Consistent s -> m_itemIDCounter s ∉ lParam <$> listView s.
Proof.
  intros C Hin. apply list_elem_of_fmap in Hin as (r & Heq & Hr).
  destruct (rows_known s C r Hr) as [i Hi].
  rewrite <- Heq, Consistent_counter_fresh in Hi by done. discriminate.
Qed.

(** What [OnFileAdded] does when the name resolves and nothing is awaiting
    insertion: one new item under the next id, one new unselected row. *)
Lemma OnFileAdded_resolved E fs s name w :
  awaitingAddList s = [] -> fs name = Some w ->
  exists pos,
    m_itemInfoMap (OnFileAdded E fs s name)
    = <[m_itemIDCounter s := mkItemInfo name w]> (m_itemInfoMap s)
    /\ m_itemIDCounter (OnFileAdded E fs s name) = m_itemIDCounter s + 1
    /\ listView (OnFileAdded E fs s name)
       = insert_at pos (mkLv (m_itemIDCounter s) false false) (listView s)
    /\ awaitingAddList (OnFileAdded E fs s name) = []
    /\ totalDirSize (OnFileAdded E fs s name)
       = wrap64 (totalDirSize s + FileSize w)
    /\ fileSelectionSize (OnFileAdded E fs s name) = fileSelectionSize s
    /\ directives (OnFileAdded E fs s name)
       = directives s
         ++ [LvInsertItem (m_itemIDCounter s)
               (Nat.min pos (length (listView s)))].
Proof.
  intros Haw Hfs. unfold OnFileAdded, GetItemInformation. rewrite Hfs.
  cbn [AddItemInternal]. unfold InsertAwaitingItems.
  destruct (insertSorted E && negb _);
    cbn [awaitingAddList with_awaitingAddList with_totalDirSize
         with_itemIDCounter with_itemInfoMap];
    rewrite Haw; cbn [app SetAwaitingPosition iItemInternal];
    rewrite ?Z.eqb_refl; cbn [fold_left]; unfold InsertAwaitingItem;
    cbn [bPosition iItem iItemInternal]; eexists; repeat split.
Qed.

Lemma Consistent_OnFileAdded E fs s name :
  Consistent s -> Consistent (OnFileAdded E fs s name).
Proof.
  intros C. destruct (fs name) as [w|] eqn:Hfs.
  - destruct (OnFileAdded_resolved E fs s name w (nothing_awaiting s C) Hfs)
      as (pos & Hm & Hc & Hlv & Haw & Htot & Hsel & _).
    pose proof (Consistent_counter_fresh s C) as Hfresh.
    pose proof (Consistent_counter_no_row s C) as Hnorow.
    constructor.
    + rewrite Hlv. rewrite insert_at_perm, fmap_cons. cbn [lParam].
      apply NoDup_cons. split; [exact Hnorow | apply (rows_distinct s C)].
    + intros r. rewrite Hlv, Hm, insert_at_perm. intros Hr.
      apply elem_of_cons in Hr as [->|Hr]; cbn [lParam].
      * rewrite lookup_insert_eq. by eexists.
      * rewrite lookup_insert_ne.
        -- by apply (rows_known s C).
        -- intros Heq. apply Hnorow. apply list_elem_of_fmap. by exists r.
    + rewrite Hc. pose proof (counter_nonneg s C). lia.
    + intros k i. rewrite Hm, Hc. intros Hk.
      apply lookup_insert_Some in Hk as [[<- _]|[_ Hk]].
      * pose proof (counter_nonneg s C). lia.
      * pose proof (ids_bounded s C k i Hk). lia.
    + exact Haw.
    + rewrite Htot, Hm, (total_sum s C), wrap64_add_l.
      rewrite DirectorySize_insert_fresh by exact Hfresh.
      f_equal. unfold ItemSize. cbn [wfd]. lia.
    + rewrite Hsel, Hm, Hlv, (selection_sum s C). f_equal.
      rewrite SelectionSize_insert_at.
      symmetry. by apply SelectionSize_insert_absent.
  - unfold OnFileAdded, GetItemInformation. rewrite Hfs. same_consistency.
Qed.

Lemma RemoveItem_rest s id :
  awaitingAddList (RemoveItem s id) = awaitingAddList s
  /\ m_itemIDCounter (RemoveItem s id) = m_itemIDCounter s.
Proof.
  unfold RemoveItem. destruct (m_itemInfoMap s !! id); [|done].
  destruct (LocateItemByInternalIndex _ _); [|done].
  by destruct (ListView_IsSelected _ _).
Qed.

Lemma Consistent_RemoveItem s id info :
  Consistent s -> m_itemInfoMap s !! id = Some info ->
  Consistent (RemoveItem s id).
Proof.
  intros C Hinfo.
  destruct (RemoveItem_known s id info Hinfo) as (Hm & Htot & Hsel & Hlv & _).
  destruct (RemoveItem_rest s id) as [Haw Hc].
  unfold RowSelected in Hsel.
  assert (exists lv', listView (RemoveItem s id) = lv'
            /\ sublist lv' (listView s)
            /\ (id ∉ lParam <$> lv')
            /\ wrap64 (SelectionSize (m_itemInfoMap s) lv')
               = fileSelectionSize (RemoveItem s id))
    as (lv' & Hlv' & Hsub & Hout & Hsum).
  { destruct (LocateItemByInternalIndex s id) as [n|] eqn:Hloc.
    - apply LocateItemByInternalIndex_Some in Hloc as (r & Hn & Hid).
      exists (delete n (listView s)). split; [exact Hlv|].
      split; [apply sublist_delete|]. split.
      + rewrite (proj2 (row_split _ _ _ Hn)), <- Hid.
        apply distinct_rows_elsewhere; [apply (rows_distinct s C) | exact Hn].
      + rewrite Hsel, (SelectionSize_delete_row _ _ _ _ Hn).
        rewrite (ListView_IsSelected_row _ _ _ Hn). unfold RowSize.
        rewrite Hid, Hinfo. destruct (lvis_selected r).
        * by rewrite (selection_sum s C), wrap64_sub_l.
        * rewrite (selection_sum s C). f_equal. lia.
    - exists (listView s). split; [exact Hlv|]. split; [reflexivity|].
      split; [by apply LocateItemByInternalIndex_None|].
      by rewrite Hsel, (selection_sum s C). }
  constructor.
  - rewrite Hlv'. eapply sublist_NoDup; [apply (rows_distinct s C)|].
    by apply fmap_sublist.
  - intros r. rewrite Hlv', Hm. intros Hr. rewrite lookup_delete_ne.
    + apply (rows_known s C). eapply elem_of_sublist; [exact Hr | exact Hsub].
    + intros Heq. apply Hout. apply list_elem_of_fmap. by exists r.
  - rewrite Hc. apply (counter_nonneg s C).
  - intros k i. rewrite Hm, Hc. intros Hk.
    apply lookup_delete_Some in Hk as [_ Hk]. apply (ids_bounded s C k i Hk).
  - rewrite Haw. apply (nothing_awaiting s C).
  - rewrite Htot, Hm, (total_sum s C), wrap64_sub_l.
    by rewrite (DirectorySize_delete _ _ _ Hinfo).
  - rewrite Hlv', Hm, <- Hsum. f_equal.
    symmetry. by apply SelectionSize_delete_absent.
Qed.

Lemma Consistent_OnFileRemoved s name :
  Consistent s -> Consistent (OnFileRemoved s name).
Proof.
  intros C. unfold OnFileRemoved. destruct (contains _ _).
  - same_consistency.
  - destruct (Z.eqb_spec (LocateFileItemInternalIndex s name) (-1)) as [|Hne];
      [exact C|].
    destruct (LocateFileItemInternalIndex_found s name _ eq_refl Hne)
      as (info & Hinfo & _).
    by apply (Consistent_RemoveItem s _ info).
Qed.

(** What [OnFileModified] does once the item is located: the stored data
    becomes what the file system has now (or the old data with size zero
    when the file is gone), and both counters move by the difference. *)
Lemma OnFileModified_located fs s name id info :
  LocateModifiedItem s name = Some id -> id <> -1 ->
  m_itemInfoMap s !! id = Some info ->
  let info' := match fs name with
               | Some w => mkItemInfo (pidlComplete info) w
               | None => zero_size info
               end in
  exists s',
    OnFileModified fs s name = Some s'
    /\ m_itemInfoMap s' = <[id := info']> (m_itemInfoMap s)
    /\ totalDirSize s'
       = wrap64 (totalDirSize s - ItemSize info + ItemSize info')
    /\ fileSelectionSize s'
       = (if ListView_IsSelected (listView s) (LocateFileItemIndex s name)
          then wrap64 (fileSelectionSize s - ItemSize info + ItemSize info')
          else fileSelectionSize s)
    /\ (listView s' = listView s
        \/ exists b, listView s'
                     = ListView_SetCut (listView s)
                         (LocateFileItemIndex s name) b)
    /\ awaitingAddList s' = awaitingAddList s
    /\ m_itemIDCounter s' = m_itemIDCounter s
    /\ directives s' = directives s.
Proof.
  intros Hloc Hid Hinfo. unfold OnFileModified.
  rewrite Hloc. destruct (Z.eqb_spec id (-1)) as [|_]; [done|].
  rewrite Hinfo. cbn [listView with_totalDirSize].
  assert (ItemSize (zero_size info) = 0) as Hzero by reflexivity.
  destruct (ListView_IsSelected (listView s) (LocateFileItemIndex s name))
    eqn:Hs;
    destruct (fs name) as [w|]; cbn zeta;
    cbn [listView with_totalDirSize with_itemInfoMap with_fileSelectionSize];
    rewrite ?Hs, ?Hzero; eexists; (split; [reflexivity|]);
    cbn [m_itemInfoMap totalDirSize fileSelectionSize listView
         awaitingAddList m_itemIDCounter directives with_listView
         with_totalDirSize with_itemInfoMap with_fileSelectionSize];
    rewrite ?wrap64_add_l, ?Z.add_0_r; repeat split; eauto.
Qed.

Lemma LocateFileItemIndex_row s name :
  LocateFileItemIndex s name <> -1 ->
  exists n r,
    LocateFileItemIndex s name = Z.of_nat n
    /\ listView s !! n = Some r
    /\ lParam r = LocateFileItemInternalIndex s name
    /\ LocateFileItemInternalIndex s name <> -1.
Proof.
  unfold LocateFileItemIndex.
  destruct (Z.eqb_spec (LocateFileItemInternalIndex s name) (-1)); [done|].
  destruct (LocateItemByInternalIndex _ _) as [i|] eqn:Hloc; [|done].
  intros _. apply LocateItemByInternalIndex_Some in Hloc as (r & Hr & Hid).
  by exists i, r.
Qed.

Lemma ListView_GetItem_row (lv : list LVITEM) n r :
  lv !! n = Some r -> ListView_GetItem lv (Z.of_nat n) = Some r.
Proof.
  intros H. unfold ListView_GetItem.
  destruct (Z.ltb_spec (Z.of_nat n) 0); [lia|]. by rewrite Nat2Z.id.
Qed.

Lemma Consistent_OnFileModified fs s name :
  Consistent s ->
  exists s', OnFileModified fs s name = Some s' /\ Consistent s'.
Proof.
  intros C.
  destruct (Z.eq_dec (LocateFileItemIndex s name) (-1)) as [Hnone|Hsome].
  - exists s. split; [|exact C]. unfold OnFileModified, LocateModifiedItem.
    rewrite Hnone, (nothing_awaiting s C). reflexivity.
  - destruct (LocateFileItemIndex_row s name Hsome)
      as (n & r & Hidx & Hn & Hid & Hne).
    destruct (rows_known s C r) as [info Hinfo];
      [by eapply list_elem_of_lookup_2|].
    assert (LocateModifiedItem s name = Some (lParam r)) as Hloc.
    { unfold LocateModifiedItem. rewrite Hidx.
      destruct (Z.eqb_spec (Z.of_nat n) (-1)); [lia|].
      by rewrite (ListView_GetItem_row _ _ _ Hn). }
    assert (lParam r <> -1) as Hr by congruence.
    destruct (OnFileModified_located fs s name _ info Hloc Hr Hinfo)
      as (s' & Hrun & Hm & Htot & Hsel & Hlv & Haw & Hc & _).
    set (info' := match fs name with
                  | Some w => mkItemInfo (pidlComplete info) w
                  | None => zero_size info
                  end) in *.
    rewrite Hidx, (ListView_IsSelected_row _ _ _ Hn) in Hsel.
    assert (lParam <$> listView s' = lParam <$> listView s) as Hids.
    { destruct Hlv as [->|[b ->]]; [reflexivity | apply lParam_SetCut]. }
    assert (forall m0, SelectionSize m0 (listView s')
                       = SelectionSize m0 (listView s)) as Hss.
    { intros m0.
      destruct Hlv as [->|[b ->]]; [reflexivity | apply SelectionSize_SetCut]. }
    exists s'. split; [exact Hrun|]. constructor.
    + rewrite Hids. apply (rows_distinct s C).
    + intros r' Hr'. rewrite Hm. apply lookup_insert_is_Some'. right.
      assert (lParam r' ∈ lParam <$> listView s) as Hin.
      { rewrite <- Hids. apply list_elem_of_fmap. by exists r'. }
      apply list_elem_of_fmap in Hin as (r0 & -> & Hr0).
      by apply (rows_known s C).
    + rewrite Hc. apply (counter_nonneg s C).
    + intros k i. rewrite Hm, Hc. intros Hk.
      apply lookup_insert_Some in Hk as [[<- _]|[_ Hk]].
      * apply (ids_bounded s C _ info Hinfo).
      * apply (ids_bounded s C k i Hk).
    + rewrite Haw. apply (nothing_awaiting s C).
    + rewrite Htot, Hm, (total_sum s C).
      rewrite (DirectorySize_update _ _ info info' Hinfo).
      apply wrap64_sub_add_l.
    + rewrite Hm, Hss, Hsel.
      rewrite (SelectionSize_update _ _ info' _ n r
                 (rows_distinct s C) Hn eq_refl).
      unfold RowSize. rewrite Hinfo. rewrite (selection_sum s C).
      destruct (lvis_selected r).
      * apply wrap64_sub_add_l.
      * f_equal. lia.
Qed.

(** ** The selection pass *)

Lemma LocateItemByInternalIndex_rows s s' id :
  lParam <$> listView s' = lParam <$> listView s ->
  LocateItemByInternalIndex s' id = LocateItemByInternalIndex s id.
Proof.
  intros Hrows. unfold LocateItemByInternalIndex.
  assert (forall lv : list LVITEM,
            fst <$> list_find (fun r => lParam r = id) lv
            = fst <$> list_find (fun k => k = id) (lParam <$> lv)) as Hfind.
  { intros lv. rewrite list_find_fmap.
    destruct (list_find ((fun k => k = id) ∘ lParam) lv) as [[n r]|] eqn:Hf;
      unfold compose in Hf; rewrite Hf; reflexivity. }
  by rewrite !Hfind, Hrows.
Qed.

Lemma LocateFileItemIndex_SameItems s s' name :
  SameItems s s' -> LocateFileItemIndex s' name = LocateFileItemIndex s name.
Proof.
  intros [Hm Hrows]. unfold LocateFileItemIndex, LocateFileItemInternalIndex.
  rewrite Hm. destruct (_ =? -1); [reflexivity|].
  by rewrite (LocateItemByInternalIndex_rows s s' _ Hrows).
Qed.

Lemma SameItems_refl s : SameItems s s.
Proof. by split. Qed.

Lemma SameItems_trans s1 s2 s3 :
  SameItems s1 s2 -> SameItems s2 s3 -> SameItems s1 s3.
Proof. intros [? ?] [? ?]. split; congruence. Qed.

(** What [SelectItem] does on an existing row. *)
Lemma SelectItem_row s n r :
  listView s !! n = Some r ->
  m_itemInfoMap (SelectItem s (Z.of_nat n)) = m_itemInfoMap s
  /\ listView (SelectItem s (Z.of_nat n))
     = <[n := mkLv (lParam r) true (lvis_cut r)]> (listView s)
  /\ directives (SelectItem s (Z.of_nat n))
     = directives s ++ [LvSelectItem (Z.of_nat n)]
  /\ fileSelectionSize (SelectItem s (Z.of_nat n))
     = (if lvis_selected r then fileSelectionSize s
        else match m_itemInfoMap s !! lParam r with
             | Some info => wrap64 (fileSelectionSize s + ItemSize info)
             | None => fileSelectionSize s
             end)
  /\ totalDirSize (SelectItem s (Z.of_nat n)) = totalDirSize s
  /\ m_itemIDCounter (SelectItem s (Z.of_nat n)) = m_itemIDCounter s
  /\ awaitingAddList (SelectItem s (Z.of_nat n)) = awaitingAddList s
  /\ SameBookkeeping s (SelectItem s (Z.of_nat n)).
Proof.
  intros Hn. unfold SelectItem. rewrite (ListView_GetItem_row _ _ _ Hn).
  rewrite Nat2Z.id.
  destruct (lvis_selected r); [by repeat split|].
  destruct (m_itemInfoMap s !! lParam r); by repeat split.
Qed.

Lemma lParam_select_row (lv : list LVITEM) n r :
  lv !! n = Some r ->
  lParam <$> <[n := mkLv (lParam r) true (lvis_cut r)]> lv = lParam <$> lv.
Proof.
  intros Hn. rewrite list_fmap_insert. cbn [lParam].
  apply list_insert_id. by rewrite list_lookup_fmap, Hn.
Qed.

Lemma SelectItem_SameItems s n r :
  listView s !! n = Some r -> SameItems s (SelectItem s (Z.of_nat n)).
Proof.
  intros Hn. destruct (SelectItem_row s n r Hn) as (Hm & Hlv & _).
  split; [exact Hm|]. rewrite Hlv. by apply lParam_select_row.
Qed.

Lemma SelectionSize_select_row m (lv : list LVITEM) n r :
  lv !! n = Some r ->
  SelectionSize m (<[n := mkLv (lParam r) true (lvis_cut r)]> lv)
  = SelectionSize m lv - RowSize m r
    + RowSize m (mkLv (lParam r) true (lvis_cut r)).
Proof.
  intros Hn.
  assert (SelectionSize m lv
          = SelectionSize m (take n lv) + RowSize m r
            + SelectionSize m (drop (S n) lv)) as Hsplit.
  { rewrite (proj1 (row_split _ _ _ Hn)) at 1.
    rewrite SelectionSize_app, SelectionSize_cons. lia. }
  rewrite insert_take_drop by (by eapply lookup_lt_Some).
  rewrite SelectionSize_app, SelectionSize_cons, Hsplit. lia.
Qed.

Lemma Consistent_SelectItem s n r :
  Consistent s -> listView s !! n = Some r ->
  Consistent (SelectItem s (Z.of_nat n)).
Proof.
  intros C Hn.
  destruct (SelectItem_row s n r Hn)
    as (Hm & Hlv & _ & Hsel & Htot & Hc & Haw & _).
  pose proof (lParam_select_row _ _ _ Hn) as Hrows.
  destruct (rows_known s C r) as [info Hinfo];
    [by eapply list_elem_of_lookup_2|].
  constructor.
  - rewrite Hlv, Hrows. apply (rows_distinct s C).
  - intros r' Hr'. rewrite Hm.
    assert (lParam r' ∈ lParam <$> listView s) as Hin.
    { rewrite <- Hrows, <- Hlv. apply list_elem_of_fmap. by exists r'. }
    apply list_elem_of_fmap in Hin as (r0 & -> & Hr0).
    by apply (rows_known s C).
  - rewrite Hc. apply (counter_nonneg s C).
  - intros k i. rewrite Hm, Hc. apply (ids_bounded s C).
  - rewrite Haw. apply (nothing_awaiting s C).
  - rewrite Htot, Hm. apply (total_sum s C).
  - rewrite Hsel, Hm, Hlv, Hinfo, (selection_sum s C).
    rewrite (SelectionSize_select_row _ _ _ _ Hn).
    unfold RowSize. cbn [lvis_selected lParam]. rewrite Hinfo.
    destruct (lvis_selected r).
    + f_equal. lia.
    + rewrite wrap64_add_l. f_equal. lia.
Qed.

Lemma Consistent_emit d s : Consistent s -> Consistent (emit d s).
Proof. intros C. same_consistency. Qed.

Lemma SelectItem_keeps_selected s n r j :
  listView s !! n = Some r ->
  ListView_IsSelected (listView s) j = true \/ j = Z.of_nat n ->
  ListView_IsSelected (listView (SelectItem s (Z.of_nat n))) j = true.
Proof.
  intros Hn Hj. destruct (SelectItem_row s n r Hn) as (_ & -> & _).
  unfold ListView_IsSelected, ListView_GetItem in *.
  destruct (Z.ltb_spec j 0) as [Hneg|Hpos]; [destruct Hj as [?|?]; [done|lia]|].
  rewrite list_lookup_insert. case_decide as Hd.
  - reflexivity.
  - destruct Hj as [Hj| ->]; [exact Hj|].
    exfalso. apply Hd. rewrite Nat2Z.id. split; [reflexivity|].
    by eapply lookup_lt_Some.
Qed.

(** One resolved name of the selection pass: the state after the row is
    selected and, if no focus was given yet, focused and scrolled to. *)
Lemma selection_step s name b :
  LocateFileItemIndex s name <> -1 ->
  let i := LocateFileItemIndex s name in
  let s2 := if b : bool then SelectItem s i
            else emit (LvEnsureVisible i) (emit (LvFocusItem i) (SelectItem s i))
  in
  SameItems s s2
  /\ SameBookkeeping s s2
  /\ (Consistent s -> Consistent s2)
  /\ totalDirSize s2 = totalDirSize s
  /\ directives s2
     = directives s
       ++ LvSelectItem i
          :: (if b then [] else [LvFocusItem i; LvEnsureVisible i])
  /\ (forall j, ListView_IsSelected (listView s) j = true \/ j = i ->
                ListView_IsSelected (listView s2) j = true).
Proof.
  intros Hres i s2.
  destruct (LocateFileItemIndex_row s name Hres) as (n & r & Hi & Hn & _).
  subst i s2. rewrite Hi.
  pose proof (SelectItem_SameItems s n r Hn) as Hsame.
  pose proof (fun C => Consistent_SelectItem s n r C Hn) as Hcons.
  pose proof (fun j => SelectItem_keeps_selected s n r j Hn) as Hkeep.
  destruct (SelectItem_row s n r Hn) as (_ & _ & Hd & _ & Htot & _ & _ & Hbk).
  destruct b.
  - split; [exact Hsame|]. split; [exact Hbk|]. split; [exact Hcons|].
    split; [exact Htot|]. split; [exact Hd|]. exact Hkeep.
  - split; [exact Hsame|]. split; [exact Hbk|].
    split; [intros C; by apply Consistent_emit, Consistent_emit, Hcons|].
    split; [exact Htot|]. split; [|exact Hkeep].
    cbn [directives emit]. rewrite Hd, <- !app_assoc. reflexivity.
Qed.

Lemma SelectFiles_spec names :
  forall s b s' kept,
    SelectFiles s names b = (s', kept) ->
    kept = List.filter (unresolved s) names
    /\ SameItems s s'
    /\ SameBookkeeping s s'
    /\ (Consistent s -> Consistent s')
    /\ totalDirSize s' = totalDirSize s
    /\ (forall j, ListView_IsSelected (listView s) j = true ->
                  ListView_IsSelected (listView s') j = true)
    /\ (forall name, In name names -> resolved s name = true ->
          ListView_IsSelected (listView s') (LocateFileItemIndex s name) = true)
    /\ exists D,
         directives s' = directives s ++ D
         /\ List.filter is_select D
            = map (fun name => LvSelectItem (LocateFileItemIndex s name))
                (List.filter (resolved s) names)
         /\ List.filter is_focus D
            = (if b then []
               else match List.filter (resolved s) names with
                    | name :: _ => [LvFocusItem (LocateFileItemIndex s name)]
                    | [] => []
                    end).
Proof.
  induction names as [|name rest IH]; intros s b s' kept.
  - cbn [SelectFiles]. intros [= <- <-].
    split; [reflexivity|]. split; [apply SameItems_refl|].
    split; [apply SameBookkeeping_refl|]. split; [auto|].
    split; [reflexivity|]. split; [auto|]. split; [intros name []|].
    exists []. rewrite app_nil_r. by destruct b.
  - cbn [SelectFiles]. unfold resolved, unresolved. cbn [List.filter].
    destruct (Z.eqb_spec (LocateFileItemIndex s name) (-1)) as [Hno|Hyes].
    + destruct (SelectFiles s rest b) as [s1 kept1] eqn:Hrec.
      intros [= <- <-].
      destruct (IH s b s1 kept1 Hrec)
        as (Hk & Hsi & Hbk & Hc & Htot & Hmono & Hsel & D & HD & Hs & Hf).
      cbn [negb]. split; [by rewrite Hk|]. split; [exact Hsi|].
      split; [exact Hbk|]. split; [exact Hc|]. split; [exact Htot|].
      split; [exact Hmono|]. split; [|by exists D].
      intros name' [<-|Hin] Hr.
      * unfold resolved, unresolved in Hr. rewrite Hno in Hr. discriminate.
      * by apply Hsel.
    + pose proof (selection_step s name b Hyes) as Hstep. cbn zeta in Hstep.
      set (s2 := if b then _ else _) in *.
      destruct Hstep as (Hsi2 & Hbk2 & Hc2 & Htot2 & Hd2 & Hkeep2).
      intros Hrec.
      destruct (IH s2 true s' kept Hrec)
        as (Hk & Hsi & Hbk & Hc & Htot & Hmono & Hsel & D & HD & Hs & Hf).
      assert (forall n, LocateFileItemIndex s2 n = LocateFileItemIndex s n)
        as Hloc by (intros n; by apply LocateFileItemIndex_SameItems).
      assert (forall n, unresolved s2 n = unresolved s n) as Hun
        by (intros n; unfold unresolved; by rewrite Hloc).
      assert (forall n, resolved s2 n = resolved s n) as Hre
        by (intros n; unfold resolved; by rewrite Hun).
      cbn [negb].
      split; [rewrite Hk; by apply List.filter_ext|].
      split; [apply (SameItems_trans s s2 s' Hsi2 Hsi)|].
      split; [apply (SameBookkeeping_trans s s2 s' Hbk2 Hbk)|].
      split; [auto|]. split; [congruence|].
      split; [intros j Hj; apply Hmono, Hkeep2; by left|].
      split.
      * intros name' [<-|Hin] Hr.
        -- apply Hmono, Hkeep2. by right.
        -- rewrite <- Hloc. apply Hsel; [exact Hin|]. by rewrite Hre.
      * exists (LvSelectItem (LocateFileItemIndex s name)
                :: (if b then []
                    else [LvFocusItem (LocateFileItemIndex s name);
                          LvEnsureVisible (LocateFileItemIndex s name)])
                   ++ D).
        split; [rewrite HD, Hd2, <- app_assoc; reflexivity|].
        split.
        -- cbn [List.filter is_select map]. f_equal.
           rewrite List.filter_app, Hs.
           rewrite (List.filter_ext _ _ Hre), (map_ext _ _
             (fun n => f_equal LvSelectItem (Hloc n))).
           by destruct b.
        -- cbn [List.filter is_focus].
           rewrite List.filter_app, Hf. by destruct b.
Qed.

(** ** Consistency over a batch *)

Lemma Consistent_empty_directory : Consistent empty_directory.
Proof.
  constructor; cbn.
  - apply NoDup_nil_2.
  - intros r Hr. by apply elem_of_nil in Hr.
  - lia.
  - intros k i Hk. by rewrite lookup_empty in Hk.
  - reflexivity.
  - by rewrite DirectorySize_empty.
  - reflexivity.
Qed.

Lemma Consistent_ProcessAlteredFile E fs s af :
  Consistent s -> AddModifyRemove af ->
  exists s', ProcessAlteredFile E fs s af = Some s' /\ Consistent s'.
Proof.
  intros C Hkind. unfold ProcessAlteredFile.
  destruct (_ =? m_uniqueFolderId s); [|by exists s].
  destruct (Z.eqb_spec (dwAction af) FILE_ACTION_ADDED).
  { eexists. split; [reflexivity|]. by apply Consistent_OnFileAdded. }
  destruct (Z.eqb_spec (dwAction af) FILE_ACTION_MODIFIED).
  { by apply Consistent_OnFileModified. }
  destruct (Z.eqb_spec (dwAction af) FILE_ACTION_REMOVED).
  { eexists. split; [reflexivity|]. by apply Consistent_OnFileRemoved. }
  unfold AddModifyRemove in Hkind. tauto.
Qed.

Lemma Consistent_ApplyAlteredList E fss l :
  forall k s,
    Consistent s -> Forall AddModifyRemove l ->
    exists s', ApplyAlteredList E fss k l s = Some s' /\ Consistent s'.
Proof.
  induction l as [|af l IH]; intros k s C Hl.
  - by exists s.
  - apply Forall_cons in Hl as [Haf Hl]. cbn [ApplyAlteredList].
    destruct (Consistent_ProcessAlteredFile E (fss k) s af C Haf)
      as (s1 & -> & C1).
    by apply IH.
Qed.

(** The end of the batch touches neither the items nor the directory
    size, the pending adds or the rename globals; it empties the queue and
    keeps the unresolved names of the selection list. *)
Lemma FinishBatch_spec s :
  SameItems s (FinishBatch s)
  /\ (Consistent s -> Consistent (FinishBatch s))
  /\ totalDirSize (FinishBatch s) = totalDirSize s
  /\ m_uniqueFolderId (FinishBatch s) = m_uniqueFolderId s
  /\ m_FilesAdded (FinishBatch s) = m_FilesAdded s
  /\ g_bNewFileRenamed (FinishBatch s) = g_bNewFileRenamed s
  /\ g_iRenamedItem (FinishBatch s) = g_iRenamedItem s
  /\ m_AlteredList (FinishBatch s) = []
  /\ m_FileSelectionList (FinishBatch s)
     = List.filter (unresolved s) (m_FileSelectionList s).
Proof.
  unfold FinishBatch.
  destruct (SelectFiles _ _ false) as [s3 kept] eqn:Hsel.
  destruct (SelectFiles_spec _ _ _ _ _ Hsel)
    as (Hk & Hsi & Hbk & Hc & Htot & _).
  destruct Hbk as (Hf & Hl & _ & _ & Hq & Hb & Hr).
  split; [exact Hsi|]. split.
  { intros C. assert (Consistent s3) as C3.
    { apply Hc. destruct C. by constructor. }
    destruct C3. by constructor. }
  repeat split; assumption.
Qed.

(** ** The rename marker *)


(** C2 (as amended).  A rename-from notification whose name is neither in
    [m_FilesAdded] nor resolvable to an item of the map changes nothing at
    all: in particular the marker left by an earlier rename stays where it
    was. *)
Theorem unresolved_RenamedFrom_changes_nothing E s name :
  contains name (m_FilesAdded s) = false ->
  (forall pidl, CreateSimplePidl E name = Some pidl ->
                GetItemInternalIndexForPidl s pidl = None) ->
  OnFileRenamedOldName E s name = s.
Proof.
  intros Hledger Hmap. unfold OnFileRenamedOldName. rewrite Hledger.
  destruct (CreateSimplePidl E name) as [pidl|]; [|reflexivity].
  by rewrite (Hmap pidl eq_refl).
Qed.

(** ** The list of files whose add did not resolve *)

(** C3 (as amended).  A notification changes [m_FilesAdded] in one of two
    ways only.  An add whose name does not resolve (an add notification, or
    a rename-to under the fast-rename flag) appends the name, whether or not
    the name is already listed; a remove or rename-from notification whose
    name is listed erases the first entry with that name.  Every other
    notification leaves the list as it is, and so does the end of the
    batch.  Conversely, every such add for the current folder does append
    the name, and every such remove or rename-from does erase the first
    entry with that name. *)
Theorem FilesAdded_step E fs s af s' :
  ProcessAlteredFile E fs s af = Some s' ->
  (m_FilesAdded s' = m_FilesAdded s
   \/ (m_FilesAdded s' = m_FilesAdded s ++ [StringCchCopy (szFileName af)]
       /\ fs (szFileName af) = None
       /\ (dwAction af = FILE_ACTION_ADDED
           \/ (dwAction af = FILE_ACTION_RENAMED_NEW_NAME
               /\ g_bNewFileRenamed s = true)))
   \/ (m_FilesAdded s' = erase_first (szFileName af) (m_FilesAdded s)
       /\ szFileName af ∈ m_FilesAdded s
       /\ (dwAction af = FILE_ACTION_REMOVED
           \/ dwAction af = FILE_ACTION_RENAMED_OLD_NAME)))
  /\ m_FilesAdded (FinishBatch s') = m_FilesAdded s'
  /\ (iFolderIndex af = m_uniqueFolderId s ->
      fs (szFileName af) = None ->
      dwAction af = FILE_ACTION_ADDED
      \/ (dwAction af = FILE_ACTION_RENAMED_NEW_NAME
          /\ g_bNewFileRenamed s = true) ->
      m_FilesAdded s' = m_FilesAdded s ++ [StringCchCopy (szFileName af)])
  /\ (iFolderIndex af = m_uniqueFolderId s ->
      szFileName af ∈ m_FilesAdded s ->
      dwAction af = FILE_ACTION_REMOVED
      \/ dwAction af = FILE_ACTION_RENAMED_OLD_NAME ->
      m_FilesAdded s' = erase_first (szFileName af) (m_FilesAdded s)).
Proof.
  intros Hstep. split; [|split; [apply FinishBatch_spec|split]].
  2:{ intros Hf Hfs Hact. revert Hstep. unfold ProcessAlteredFile.
      rewrite Hf, Z.eqb_refl.
      assert (m_FilesAdded (OnFileAdded E fs s (szFileName af))
              = m_FilesAdded s ++ [StringCchCopy (szFileName af)]) as Hadd.
      { unfold OnFileAdded, GetItemInformation. by rewrite Hfs. }
      destruct Hact as [Ha|[Ha Hflag]]; rewrite Ha; cbn; intros [= <-].
      - exact Hadd.
      - unfold OnFileRenamedNewName. rewrite Hflag. exact Hadd. }
  2:{ intros Hf Hin Hact. revert Hstep. unfold ProcessAlteredFile.
      rewrite Hf, Z.eqb_refl. apply contains_true in Hin.
      destruct Hact as [Ha|Ha]; rewrite Ha; cbn; intros [= <-].
      - unfold OnFileRemoved. by rewrite Hin.
      - unfold OnFileRenamedOldName. by rewrite Hin. }
  revert Hstep.
  assert (forall n, m_FilesAdded (OnFileAdded E fs s n) = m_FilesAdded s
             \/ (m_FilesAdded (OnFileAdded E fs s n)
                 = m_FilesAdded s ++ [StringCchCopy n] /\ fs n = None)) as Hadd.
  { intros n. destruct (fs n) as [w|] eqn:Hfs.
    - left. apply (OnFileAdded_resolved_bookkeeping E fs s n w Hfs).
    - right. unfold OnFileAdded, GetItemInformation. rewrite Hfs. by split. }
  unfold ProcessAlteredFile.
  destruct (_ =? m_uniqueFolderId s); [|intros [= <-]; by left].
  destruct (_ =? FILE_ACTION_ADDED) eqn:Ha.
  { intros [= <-]. apply Z.eqb_eq in Ha.
    destruct (Hadd (szFileName af)) as [H|[H1 H2]]; [by left|].
    right; left. auto. }
  destruct (_ =? FILE_ACTION_MODIFIED).
  { intros H. left. apply (OnFileModified_bookkeeping _ _ _ _ H). }
  destruct (_ =? FILE_ACTION_REMOVED) eqn:Hr.
  { intros [= <-]. apply Z.eqb_eq in Hr. unfold OnFileRemoved.
    destruct (contains _ _) eqn:Hc.
    - right; right. apply contains_true in Hc. auto.
    - left. destruct (_ =? -1); [reflexivity|]. apply RemoveItem_bookkeeping. }
  destruct (_ =? FILE_ACTION_RENAMED_OLD_NAME) eqn:Ho.
  { intros [= <-]. apply Z.eqb_eq in Ho. unfold OnFileRenamedOldName.
    destruct (contains _ _) eqn:Hc.
    - right; right. apply contains_true in Hc. auto.
    - left. destruct (CreateSimplePidl E _); [|reflexivity].
      by destruct (GetItemInternalIndexForPidl s _). }
  destruct (_ =? FILE_ACTION_RENAMED_NEW_NAME) eqn:Hn; [|intros [= <-]; by left].
  intros [= <-]. apply Z.eqb_eq in Hn. unfold OnFileRenamedNewName.
  destruct (g_bNewFileRenamed s) eqn:Hflag.
  - cbn [m_FilesAdded with_bNewFileRenamed].
    destruct (Hadd (szFileName af)) as [H|[H1 H2]]; [by left|].
    right; left. auto.
  - left. apply RenameItem_bookkeeping.
Qed.

(** ** The counters over a batch *)

(** C4.  From a consistent state, every add, modify or remove
    notification returns normally and leaves a consistent state, and so does
    a whole batch of them, selection pass included: afterwards
    [totalDirSize] is the sum of the sizes of all items of the map and
    [fileSelectionSize] the sum of the sizes of the items whose row is
    selected, both as 64-bit values (and exactly, when the sums fit 64
    bits).  The size that [OnFileModified] stores thus always comes with
    the matching update of both counters.  (The item replacement made by a
    rename-to is outside this statement.) *)
Theorem counters_after_add_modify_remove E fss s :
  Consistent s ->
  (forall fs af, AddModifyRemove af ->
     exists s1, ProcessAlteredFile E fs s af = Some s1 /\ Consistent s1)
  /\ (Forall AddModifyRemove (m_AlteredList s) ->
      exists s',
        DirectoryAltered E fss s = Some s'
        /\ Consistent s'
        /\ totalDirSize s' = wrap64 (DirectorySize (m_itemInfoMap s'))
        /\ fileSelectionSize s'
           = wrap64 (SelectionSize (m_itemInfoMap s') (listView s'))
        /\ (0 <= DirectorySize (m_itemInfoMap s') < 2 ^ 64 ->
            totalDirSize s' = DirectorySize (m_itemInfoMap s'))
        /\ (0 <= SelectionSize (m_itemInfoMap s') (listView s') < 2 ^ 64 ->
            fileSelectionSize s'
            = SelectionSize (m_itemInfoMap s') (listView s'))).
Proof.
  intros C. split.
  - intros fs af Haf. by apply Consistent_ProcessAlteredFile.
  - intros Hl. unfold DirectoryAltered.
    destruct (Consistent_ApplyAlteredList E fss _ 0 s C Hl) as (s1 & -> & C1).
    pose proof (proj1 (proj2 (FinishBatch_spec s1)) C1) as C'.
    eexists. split; [reflexivity|]. split; [exact C'|].
    pose proof (total_sum _ C') as Ht. pose proof (selection_sum _ C') as Hs.
    split; [exact Ht|]. split; [exact Hs|]. split.
    + intros Hr. by rewrite Ht, wrap64_small.
    + intros Hr. by rewrite Hs, wrap64_small.
Qed.

(** ** Scenarios *)

Lemma ProcessAlteredFile_Added E fs s name :
  ProcessAlteredFile E fs s
    (mkAltered name FILE_ACTION_ADDED (m_uniqueFolderId s))
  = Some (OnFileAdded E fs s name).
Proof. unfold ProcessAlteredFile. cbn. by rewrite Z.eqb_refl. Qed.

Lemma ProcessAlteredFile_Modified E fs s name :
  ProcessAlteredFile E fs s
    (mkAltered name FILE_ACTION_MODIFIED (m_uniqueFolderId s))
  = OnFileModified fs s name.
Proof. unfold ProcessAlteredFile. cbn. by rewrite Z.eqb_refl. Qed.

Lemma ProcessAlteredFile_RenamedOld E fs s name :
  ProcessAlteredFile E fs s
    (mkAltered name FILE_ACTION_RENAMED_OLD_NAME (m_uniqueFolderId s))
  = Some (OnFileRenamedOldName E s name).
Proof. unfold ProcessAlteredFile. cbn. by rewrite Z.eqb_refl. Qed.

Lemma ProcessAlteredFile_RenamedNew E fs s name :
  ProcessAlteredFile E fs s
    (mkAltered name FILE_ACTION_RENAMED_NEW_NAME (m_uniqueFolderId s))
  = Some (OnFileRenamedNewName E fs s name).
Proof. unfold ProcessAlteredFile. cbn. by rewrite Z.eqb_refl. Qed.

Lemma StringCchCopy_short name :
  (String.length name < MAX_PATH)%nat -> StringCchCopy name = name.
Proof.
  intros H. unfold StringCchCopy.
  by destruct (Nat.ltb_spec (String.length name) MAX_PATH); [|lia].
Qed.

Lemma contains_head name l : contains name (name :: l) = true.
Proof. unfold contains. cbn. by rewrite String.eqb_refl. Qed.

Lemma erase_first_head name l : erase_first name (name :: l) = l.
Proof. cbn. by rewrite String.eqb_refl. Qed.

(** The item just added under a name nobody else carries is the one every
    lookup of that name finds, and it has a row. *)
Lemma added_item_is_located E fs s name w :
  Consistent s -> fs name = Some w -> cFileName w = name ->
  (forall k i, m_itemInfoMap s !! k = Some i -> cFileName (wfd i) <> name) ->
  LocateFileItemInternalIndex (OnFileAdded E fs s name) name
  = m_itemIDCounter s
  /\ exists n r,
       LocateFileItemIndex (OnFileAdded E fs s name) name = Z.of_nat n
       /\ listView (OnFileAdded E fs s name) !! n = Some r
       /\ lParam r = m_itemIDCounter s.
Proof.
  intros C Hfs Hname Hnew.
  destruct (OnFileAdded_resolved E fs s name w (nothing_awaiting s C) Hfs)
    as (pos & Hm & _ & Hlv & _).
  pose proof (Consistent_OnFileAdded E fs s name C) as C1.
  set (s1 := OnFileAdded E fs s name) in *.
  assert (m_itemInfoMap s1 !! m_itemIDCounter s = Some (mkItemInfo name w))
    as Hc by (rewrite Hm; apply lookup_insert_eq).
  pose proof (LocateFileItemInternalIndex_hit s1 name _ _
                (Consistent_ids_valid s1 C1) Hc Hname) as Hne.
  destruct (LocateFileItemInternalIndex_found s1 name _ eq_refl Hne)
    as (i & Hi & Hiname).
  assert (LocateFileItemInternalIndex s1 name = m_itemIDCounter s) as Hid.
  { destruct (Z.eq_dec (LocateFileItemInternalIndex s1 name)
                (m_itemIDCounter s)) as [|Hd]; [done|].
    rewrite Hm, lookup_insert_ne in Hi by congruence.
    by destruct (Hnew _ _ Hi). }
  split; [exact Hid|].
  assert (LocateFileItemIndex s1 name <> -1) as Hrow.
  { unfold LocateFileItemIndex. rewrite Hid.
    pose proof (counter_nonneg s C).
    destruct (Z.eqb_spec (m_itemIDCounter s) (-1)); [lia|].
    destruct (LocateItemByInternalIndex s1 _) as [n0|] eqn:Hloc; [lia|].
    apply LocateItemByInternalIndex_None in Hloc. exfalso. apply Hloc.
    rewrite Hlv, insert_at_perm, fmap_cons. apply list_elem_of_here. }
  destruct (LocateFileItemIndex_row s1 name Hrow) as (n & r & H1 & H2 & H3 & _).
  exists n, r. repeat split; congruence.
Qed.

Lemma SearchAwaiting_first_match m l1 a l2 name info :
  Forall (OtherAwaiting m name) l1 ->
  m !! iItemInternal a = Some info -> cFileName (wfd info) = name ->
  SearchAwaiting m (l1 ++ a :: l2) name = Some (iItemInternal a).
Proof.
  intros Hall Hinfo Hname.
  induction Hall as [|b l1 (i & Hb & Hne) _ IH]; cbn [app SearchAwaiting].
  - rewrite Hinfo. by destruct (String.eqb_spec (cFileName (wfd info)) name).
  - rewrite Hb. by destruct (String.eqb_spec (cFileName (wfd i)) name).
Qed.

(** C6.  An add notification followed in the same batch by a modify
    notification for the same new name, the file having another size at the
    second look: the batch ends with the item holding what the file system
    showed at the time of the modify notification, and the directory size
    has grown by that size once.  Second part: [OnFileModified] also updates
    an item that has no row yet and waits in the awaiting list, behind
    awaiting items of other names: the search of that list finds it, its
    data becomes what the file system shows and the directory size moves by
    the difference. *)
Theorem modify_before_insert E fss s name w1 w2 :
  Consistent s ->
  m_AlteredList s
  = [mkAltered name FILE_ACTION_ADDED (m_uniqueFolderId s);
     mkAltered name FILE_ACTION_MODIFIED (m_uniqueFolderId s)] ->
  (forall k i, m_itemInfoMap s !! k = Some i -> cFileName (wfd i) <> name) ->
  fss 0%nat name = Some w1 -> cFileName w1 = name ->
  fss 1%nat name = Some w2 ->
  (exists s',
     DirectoryAltered E fss s = Some s'
     /\ m_itemInfoMap s'
        = <[m_itemIDCounter s := mkItemInfo name w2]> (m_itemInfoMap s)
     /\ totalDirSize s' = wrap64 (totalDirSize s + FileSize w2)
     /\ Consistent s')
  /\ (forall fs t before a after info w,
        LocateFileItemIndex t name = -1 ->
        awaitingAddList t = before ++ a :: after ->
        Forall (OtherAwaiting (m_itemInfoMap t) name) before ->
        m_itemInfoMap t !! iItemInternal a = Some info ->
        cFileName (wfd info) = name ->
        iItemInternal a <> -1 ->
        fs name = Some w ->
        exists t',
          OnFileModified fs t name = Some t'
          /\ m_itemInfoMap t'
             = <[iItemInternal a := mkItemInfo (pidlComplete info) w]>
                 (m_itemInfoMap t)
          /\ totalDirSize t'
             = wrap64 (totalDirSize t - ItemSize info + FileSize w)).
Proof.
  intros C Hq Hnew Hfs1 Hname Hfs2. split.
  - unfold DirectoryAltered. rewrite Hq. cbn [ApplyAlteredList].
    rewrite ProcessAlteredFile_Added.
    destruct (OnFileAdded_resolved E (fss 0%nat) s name w1
                (nothing_awaiting s C) Hfs1)
      as (pos & Hm & _ & _ & _ & Htot & _).
    destruct (added_item_is_located E (fss 0%nat) s name w1 C Hfs1 Hname Hnew)
      as (_ & n & r & Hidx & Hn & Hid).
    pose proof (Consistent_OnFileAdded E (fss 0%nat) s name C) as C1.
    set (s1 := OnFileAdded E (fss 0%nat) s name) in *.
    assert (m_uniqueFolderId s1 = m_uniqueFolderId s) as Hf
      by apply (OnFileAdded_resolved_bookkeeping E _ s name w1 Hfs1).
    rewrite <- Hf, ProcessAlteredFile_Modified.
    assert (LocateModifiedItem s1 name = Some (m_itemIDCounter s)) as Hloc.
    { unfold LocateModifiedItem. rewrite Hidx.
      destruct (Z.eqb_spec (Z.of_nat n) (-1)); [lia|].
      by rewrite (ListView_GetItem_row _ _ _ Hn), Hid. }
    assert (m_itemInfoMap s1 !! m_itemIDCounter s = Some (mkItemInfo name w1))
      as Hc by (rewrite Hm; apply lookup_insert_eq).
    pose proof (counter_nonneg s C) as Hpos.
    destruct (OnFileModified_located (fss 1%nat) s1 name _ _ Hloc
                ltac:(lia) Hc)
      as (s2 & Hrun & Hm2 & Htot2 & _).
    destruct (Consistent_OnFileModified (fss 1%nat) s1 name C1)
      as (s2' & Hrun' & C2).
    rewrite Hrun in Hrun'. injection Hrun' as <-.
    rewrite Hrun. rewrite Hfs2 in Hm2, Htot2. cbn [pidlComplete] in Hm2.
    destruct (FinishBatch_spec s2) as ([Hsm _] & Hcons & Hst & _).
    eexists. split; [reflexivity|]. split; [|split].
    + rewrite Hsm, Hm2, Hm. apply insert_insert_eq.
    + rewrite Hst, Htot2, Htot. unfold ItemSize. cbn [wfd].
      rewrite wrap64_sub_add_l. f_equal. lia.
    + by apply Hcons.
  - intros fs t before a after info w Hno Hlist Hall Hinfo Hiname Hid Hfs.
    assert (LocateModifiedItem t name = Some (iItemInternal a)) as Hloc.
    { unfold LocateModifiedItem. rewrite Hno, Hlist. cbn.
      by apply SearchAwaiting_first_match with info. }
    destruct (OnFileModified_located fs t name _ info Hloc Hid Hinfo)
      as (t' & Hrun & Hm & Htot & _).
    rewrite Hfs in Hm, Htot. by exists t'.
Qed.

Lemma ItemsNamed_single (m : gmap Z ItemInfo_t) c info name :
  m !! c = None -> cFileName (wfd info) = name ->
  (forall k i, m !! k = Some i -> cFileName (wfd i) <> name) ->
  size (ItemsNamed name (<[c := info]> m)) = 1%nat.
Proof.
  intros Hc Hname Hnew. unfold ItemsNamed.
  rewrite map_filter_insert_True by exact Hname.
  assert (filter (fun e : Z * ItemInfo_t => cFileName (wfd (snd e)) = name) m
          = ∅) as ->.
  { apply map_empty. intros k. apply map_lookup_filter_None.
    destruct (m !! k) as [i|] eqn:Hk; [right|by left].
    intros x [= <-]. by apply (Hnew k). }
  by rewrite insert_empty, map_size_singleton.
Qed.

Lemma OnFileAdded_unresolved E fs s a :
  fs a = None -> (String.length a < MAX_PATH)%nat ->
  OnFileAdded E fs s a = with_FilesAdded (m_FilesAdded s ++ [a]) s.
Proof.
  intros Hfs Hlen. unfold OnFileAdded, GetItemInformation.
  by rewrite Hfs, StringCchCopy_short.
Qed.

Lemma Consistent_with_FilesAdded l s :
  Consistent s -> Consistent (with_FilesAdded l s).
Proof. intros C. same_consistency. Qed.

Lemma Consistent_with_AlteredList l s :
  Consistent s -> Consistent (with_AlteredList l s).
Proof. intros C. same_consistency. Qed.

(** The two rename notifications that follow an add that did not resolve:
    the pending name leaves the list, and the rename-to adds the file under
    its new name. *)
Lemma fast_rename_completion E fs t a b wb :
  Consistent t -> m_FilesAdded t = [a] ->
  (forall k i, m_itemInfoMap t !! k = Some i -> cFileName (wfd i) <> b) ->
  cFileName wb = b -> fs b = Some wb ->
  let t2 := OnFileRenamedOldName E t a in
  let t3 := OnFileRenamedNewName E fs t2 b in
  m_uniqueFolderId t2 = m_uniqueFolderId t
  /\ m_FilesAdded t3 = []
  /\ m_itemInfoMap t3
     = <[m_itemIDCounter t := mkItemInfo b wb]> (m_itemInfoMap t)
  /\ size (ItemsNamed b (m_itemInfoMap t3)) = 1%nat
  /\ Consistent t3.
Proof.
  intros Ct Ht Hnew Hname Hfs t2 t3.
  assert (t2 = with_FilesAdded [] (with_bNewFileRenamed true t)) as Hold.
  { subst t2. unfold OnFileRenamedOldName.
    by rewrite Ht, contains_head, erase_first_head. }
  assert (Consistent t2) as C2.
  { rewrite Hold. destruct Ct. by constructor. }
  assert (t3 = with_bNewFileRenamed false (OnFileAdded E fs t2 b)) as Hnewname.
  { subst t3. unfold OnFileRenamedNewName. by rewrite Hold. }
  destruct (OnFileAdded_resolved E fs t2 b wb (nothing_awaiting t2 C2) Hfs)
    as (pos & Hm & _).
  assert (m_itemInfoMap t3
          = <[m_itemIDCounter t := mkItemInfo b wb]> (m_itemInfoMap t)) as Hm3.
  { rewrite Hnewname. cbn [m_itemInfoMap with_bNewFileRenamed].
    rewrite Hm, Hold. reflexivity. }
  split; [by rewrite Hold|]. split.
  { rewrite Hnewname. cbn [m_FilesAdded with_bNewFileRenamed].
    destruct (OnFileAdded_resolved_bookkeeping E fs t2 b wb Hfs)
      as (_ & -> & _).
    by rewrite Hold. }
  split; [exact Hm3|]. split.
  { rewrite Hm3. apply ItemsNamed_single; [|exact Hname|exact Hnew].
    by apply Consistent_counter_fresh. }
  rewrite Hnewname.
  pose proof (Consistent_OnFileAdded E fs t2 b C2) as C3.
  destruct C3. by constructor.
Qed.

(** C5.  Fast rename.  An add notification for a file that is already gone,
    then the rename-from and rename-to notifications of its rename, the new
    name being on disk: whether the three arrive in one batch or the add in
    one batch and the renames in the next, the map ends up with exactly one
    item of the new name and the list of unresolved adds is empty. *)
Theorem fast_rename_race E fss fss' s a b wb :
  Consistent s -> m_FilesAdded s = [] -> m_AlteredList s = [] ->
  (String.length a < MAX_PATH)%nat -> (String.length b < MAX_PATH)%nat ->
  (forall k i, m_itemInfoMap s !! k = Some i -> cFileName (wfd i) <> b) ->
  cFileName wb = b ->
  fss 0%nat a = None -> fss 2%nat b = Some wb -> fss' 1%nat b = Some wb ->
  let f := m_uniqueFolderId s in
  let added := FilesModified FILE_ACTION_ADDED a f in
  let renamed_from := FilesModified FILE_ACTION_RENAMED_OLD_NAME a f in
  let renamed_to := FilesModified FILE_ACTION_RENAMED_NEW_NAME b f in
  (exists s',
     DirectoryAltered E fss (renamed_to (renamed_from (added s))) = Some s'
     /\ m_FilesAdded s' = []
     /\ size (ItemsNamed b (m_itemInfoMap s')) = 1%nat)
  /\ (exists s1 s2,
        DirectoryAltered E fss (added s) = Some s1
        /\ m_FilesAdded s1 = [a]
        /\ DirectoryAltered E fss' (renamed_to (renamed_from s1)) = Some s2
        /\ m_FilesAdded s2 = []
        /\ size (ItemsNamed b (m_itemInfoMap s2)) = 1%nat).
Proof.
  intros C Hledger Hq Hla Hlb Hnew Hname Hfs1 Hfs3 Hfs3' f added renamed_from
    renamed_to.
  subst added renamed_from renamed_to. unfold FilesModified.
  rewrite !StringCchCopy_short by assumption. split.
  - unfold DirectoryAltered.
    cbn [m_AlteredList with_AlteredList]. rewrite Hq. cbn [app ApplyAlteredList].
    set (s0 := with_AlteredList _ _).
    assert (Consistent s0) as C0
      by (subst s0; repeat apply Consistent_with_AlteredList; exact C).
    change f with (m_uniqueFolderId s0).
    rewrite ProcessAlteredFile_Added.
    rewrite (OnFileAdded_unresolved E _ s0 a Hfs1 Hla).
    set (s1 := with_FilesAdded _ s0).
    assert (Consistent s1) as C1 by by apply Consistent_with_FilesAdded.
    assert (m_FilesAdded s1 = [a]) as Hl1.
    { subst s1 s0. cbn. by rewrite Hledger. }
    pose proof (fast_rename_completion E (fss 2%nat) s1 a b wb C1 Hl1 Hnew
                  Hname Hfs3) as Hdone.
    cbn zeta in Hdone. destruct Hdone as (Hf2 & Hl3 & Hm3 & Hsz & C3).
    change (m_uniqueFolderId s0) with (m_uniqueFolderId s1).
    rewrite ProcessAlteredFile_RenamedOld.
    rewrite <- Hf2, ProcessAlteredFile_RenamedNew.
    eexists. split; [reflexivity|].
    destruct (FinishBatch_spec
                (OnFileRenamedNewName E (fss 2%nat)
                   (OnFileRenamedOldName E s1 a) b))
      as ([Hsm _] & _ & _ & _ & Hl & _).
    split; [by rewrite Hl|]. by rewrite Hsm.
  - unfold DirectoryAltered at 1.
    cbn [m_AlteredList with_AlteredList]. rewrite Hq. cbn [app ApplyAlteredList].
    set (s0 := with_AlteredList _ s).
    assert (Consistent s0) as C0
      by (subst s0; repeat apply Consistent_with_AlteredList; exact C).
    change f with (m_uniqueFolderId s0).
    rewrite ProcessAlteredFile_Added.
    rewrite (OnFileAdded_unresolved E _ s0 a Hfs1 Hla).
    set (s1 := with_FilesAdded _ s0).
    assert (Consistent s1) as C1 by by apply Consistent_with_FilesAdded.
    destruct (FinishBatch_spec s1)
      as ([Hsm1 _] & Hc1 & _ & Hf1 & Hl1 & _ & _ & Hq1 & _).
    exists (FinishBatch s1). eexists. split; [reflexivity|].
    assert (m_FilesAdded (FinishBatch s1) = [a]) as Hl1'.
    { rewrite Hl1. subst s1 s0. cbn. by rewrite Hledger. }
    split; [exact Hl1'|].
    unfold DirectoryAltered.
    cbn [m_AlteredList with_AlteredList]. rewrite Hq1.
    cbn [app ApplyAlteredList].
    set (t := with_AlteredList _ (with_AlteredList _ (FinishBatch s1))).
    assert (Consistent t) as Ct.
    { by apply Consistent_with_AlteredList, Consistent_with_AlteredList, Hc1. }
    assert (forall k i, m_itemInfoMap t !! k = Some i -> cFileName (wfd i) <> b)
      as Hnew'.
    { subst t. cbn [m_itemInfoMap with_AlteredList]. by rewrite Hsm1. }
    pose proof (fast_rename_completion E (fss' 1%nat) t a b wb Ct Hl1' Hnew'
                  Hname Hfs3') as Hdone.
    cbn zeta in Hdone. destruct Hdone as (Hf2 & Hl3 & Hm3 & Hsz & C3).
    change (m_uniqueFolderId s0) with (m_uniqueFolderId s1).
    rewrite <- Hf1. change (m_uniqueFolderId (FinishBatch s1))
      with (m_uniqueFolderId t).
    rewrite ProcessAlteredFile_RenamedOld.
    rewrite <- Hf2, ProcessAlteredFile_RenamedNew.
    split; [reflexivity|].
    match goal with
    | |- m_FilesAdded (FinishBatch ?x) = _ /\ _ =>
        destruct (FinishBatch_spec x) as ([Hsm _] & _ & _ & _ & Hl & _)
    end.
    split; [rewrite Hl; exact Hl3 | rewrite Hsm; exact Hsz].
Qed.

(** The selection pass at the end of a batch, in terms of the state [s] the
    loop over the queue has left. *)
Lemma FinishBatch_selection s :
  exists D,
    directives (FinishBatch s) = directives s ++ D
    /\ List.filter is_select D
       = map (fun name => LvSelectItem (LocateFileItemIndex s name))
           (List.filter (resolved s) (m_FileSelectionList s))
    /\ List.filter is_focus D
       = match List.filter (resolved s) (m_FileSelectionList s) with
         | name :: _ => [LvFocusItem (LocateFileItemIndex s name)]
         | [] => []
         end
    /\ (forall name, In name (m_FileSelectionList s) ->
          resolved s name = true ->
          ListView_IsSelected (listView (FinishBatch s))
            (LocateFileItemIndex s name) = true).
Proof.
  unfold FinishBatch.
  destruct (SelectFiles _ _ false) as [s3 kept] eqn:Hsel.
  destruct (SelectFiles_spec _ _ _ _ _ Hsel)
    as (_ & _ & _ & _ & _ & _ & Hrows & D & HD & Hs & Hf).
  exists D. repeat split; assumption.
Qed.

(** C10.  After the queue of a batch has been applied, every name of
    [m_FileSelectionList] that now has a row gets that row selected, in list
    order; the focus (with the scroll into view) goes to the first of them
    and to no other; these names leave the list and the names without a row
    stay on it.  In particular a name requested while no item carries it
    stays on the list through an empty batch without any call, and the
    batch that adds the file selects and focuses its row once and takes the
    name off the list. *)
Theorem selection_after_batch E fss s s1 :
  ApplyAlteredList E fss 0 (m_AlteredList s) s = Some s1 ->
  (exists s' D,
     DirectoryAltered E fss s = Some s'
     /\ m_FileSelectionList s'
        = List.filter (unresolved s1) (m_FileSelectionList s1)
     /\ directives s' = directives s1 ++ D
     /\ List.filter is_select D
        = map (fun name => LvSelectItem (LocateFileItemIndex s1 name))
            (List.filter (resolved s1) (m_FileSelectionList s1))
     /\ List.filter is_focus D
        = match List.filter (resolved s1) (m_FileSelectionList s1) with
          | name :: _ => [LvFocusItem (LocateFileItemIndex s1 name)]
          | [] => []
          end
     /\ (length (List.filter is_focus D) <= 1)%nat
     /\ (forall name, In name (m_FileSelectionList s1) ->
           resolved s1 name = true ->
           ListView_IsSelected (listView s') (LocateFileItemIndex s1 name)
           = true))
  /\ (forall name w,
        Consistent s -> m_AlteredList s = [] ->
        m_FileSelectionList s = [name] ->
        (forall k i, m_itemInfoMap s !! k = Some i -> cFileName (wfd i) <> name) ->
        (String.length name < MAX_PATH)%nat ->
        fss 0%nat name = Some w -> cFileName w = name ->
        (exists s0,
           DirectoryAltered E fss s = Some s0
           /\ m_FileSelectionList s0 = [name]
           /\ List.filter is_select (directives s0)
              = List.filter is_select (directives s)
           /\ List.filter is_focus (directives s0)
              = List.filter is_focus (directives s))
        /\ (exists s' D index r,
              DirectoryAltered E fss
                (FilesModified FILE_ACTION_ADDED name (m_uniqueFolderId s) s)
              = Some s'
              /\ m_FileSelectionList s' = []
              /\ directives s' = directives s ++ D
              /\ List.filter is_select D = [LvSelectItem index]
              /\ List.filter is_focus D = [LvFocusItem index]
              /\ ListView_GetItem (listView s') index = Some r
              /\ lParam r = m_itemIDCounter s
              /\ lvis_selected r = true
              /\ m_itemInfoMap s' !! m_itemIDCounter s
                 = Some (mkItemInfo name w))).
Proof.
  intros Hrun. split.
  - unfold DirectoryAltered. rewrite Hrun.
    destruct (FinishBatch_selection s1) as (D & HD & Hs & Hf & Hrows).
    destruct (FinishBatch_spec s1) as (_ & _ & _ & _ & _ & _ & _ & _ & Hk).
    exists (FinishBatch s1), D.
    split; [reflexivity|]. split; [exact Hk|]. split; [exact HD|].
    split; [exact Hs|]. split; [exact Hf|]. split; [|exact Hrows].
    rewrite Hf. destruct (List.filter (resolved s1) _); cbn; lia.
  - clear s1 Hrun. intros name w C Hq Hlist Hnew Hlen Hfs Hname. split.
    + unfold DirectoryAltered. rewrite Hq. cbn [ApplyAlteredList].
      destruct (FinishBatch_selection s) as (D & HD & Hs & Hf & _).
      destruct (FinishBatch_spec s) as (_ & _ & _ & _ & _ & _ & _ & _ & Hk).
      assert (unresolved s name = true) as Hun.
      { unfold unresolved, LocateFileItemIndex.
        by rewrite (LocateFileItemInternalIndex_unknown s name Hnew). }
      assert (resolved s name = false) as Hre
        by (unfold resolved; by rewrite Hun).
      rewrite Hlist in Hs, Hf, Hk. cbn [List.filter] in Hs, Hf, Hk.
      rewrite Hun in Hk. rewrite Hre in Hs, Hf. cbn [map] in Hs.
      exists (FinishBatch s). split; [reflexivity|]. split; [exact Hk|].
      rewrite HD, !List.filter_app, Hs, Hf, !app_nil_r. by split.
    + unfold DirectoryAltered, FilesModified.
      cbn [m_AlteredList with_AlteredList]. rewrite Hq, StringCchCopy_short by done.
      cbn [app ApplyAlteredList].
      set (s0 := with_AlteredList _ s).
      assert (Consistent s0) as C0 by by apply Consistent_with_AlteredList.
      change (m_uniqueFolderId s) with (m_uniqueFolderId s0).
      rewrite ProcessAlteredFile_Added.
      destruct (OnFileAdded_resolved E (fss 0%nat) s0 name w
                  (nothing_awaiting s0 C0) Hfs)
        as (pos & Hm & _ & _ & _ & _ & _ & Hd1).
      destruct (added_item_is_located E (fss 0%nat) s0 name w C0 Hfs Hname Hnew)
        as (_ & n & r & Hidx & Hn & Hid).
      assert (m_FileSelectionList (OnFileAdded E (fss 0%nat) s0 name) = [name])
        as Hlist1.
      { destruct (OnFileAdded_resolved_bookkeeping E _ s0 name w Hfs)
          as (_ & _ & _ & -> & _).
        exact Hlist. }
      set (s1 := OnFileAdded E (fss 0%nat) s0 name) in *.
      destruct (FinishBatch_selection s1) as (D & HD & Hs & Hf & Hrows).
      destruct (FinishBatch_spec s1)
        as ([Hsm Hsr] & _ & _ & _ & _ & _ & _ & _ & Hk).
      assert (unresolved s1 name = false) as Hun.
      { unfold unresolved. rewrite Hidx. apply Z.eqb_neq. lia. }
      assert (resolved s1 name = true) as Hre
        by (unfold resolved; by rewrite Hun).
      rewrite Hlist1 in Hs, Hf, Hk, Hrows.
      cbn [List.filter] in Hs, Hf, Hk.
      rewrite Hun in Hk. rewrite Hre in Hs, Hf. cbn [map] in Hs.
      specialize (Hrows name (or_introl eq_refl) Hre).
      rewrite Hidx in Hs, Hf, Hrows.
      unfold ListView_IsSelected in Hrows.
      destruct (ListView_GetItem (listView (FinishBatch s1)) (Z.of_nat n))
        as [r'|] eqn:Hget; [|discriminate].
      exists (FinishBatch s1),
        (LvInsertItem (m_itemIDCounter s0) (Nat.min pos (length (listView s0)))
         :: D), (Z.of_nat n), r'.
      split; [reflexivity|]. split; [exact Hk|].
      split; [rewrite HD, Hd1, <- app_assoc; reflexivity|].
      split; [exact Hs|]. split; [exact Hf|]. split; [exact Hget|].
      split; [|split; [exact Hrows|]].
      * apply ListView_GetItem_Some in Hget as [_ Hget].
        rewrite Nat2Z.id in Hget.
        assert ((lParam <$> listView (FinishBatch s1)) !! n = Some (lParam r'))
          as H1 by (by rewrite list_lookup_fmap, Hget).
        rewrite Hsr, list_lookup_fmap, Hn in H1. cbn in H1.
        injection H1 as <-. exact Hid.
      * rewrite Hsm, Hm. apply lookup_insert_eq.
Qed.

(** * Examples *)

Local Open Scope string_scope.

(** ** Where the source departs from its description *)


(** A rename-from that resolves nowhere keeps the marker of an earlier
    rename, and the rename-to that follows it acts on that marker: here the
    item that was renamed from [a] to [b] ends up carrying the data of
    [y]. *)
Lemma stale_marker_is_kept_and_used :
  marker_after
    (DirectoryAltered env0
       (fs_seq [one_file "a" 10; one_file "a" 10; one_file "b" 10; no_files])
       (queue [Added "a"; RenamedFrom "a"; RenamedTo "b"; RenamedFrom "ghost"]
          empty_directory))
  = Some 0
  /\ names_after
       (DirectoryAltered env0
          (fs_seq [one_file "a" 10; one_file "a" 10; one_file "b" 10; no_files;
                   one_file "y" 7])
          (queue [Added "a"; RenamedFrom "a"; RenamedTo "b";
                  RenamedFrom "ghost"; RenamedTo "y"] empty_directory))
     = Some [(0, "y")].
Proof. split; vm_compute; reflexivity. Qed.

(** Two adds of the same name that both fail to resolve list the name
    twice. *)
Lemma pending_add_listed_twice :
  pending_after
    (DirectoryAltered env0 (fs_seq [])
       (queue [Added "a"; Added "a"] empty_directory))
  = Some ["a"; "a"]
  /\ ~ NoDup ["a"; "a"].
Proof.
  split; [vm_compute; reflexivity|].
  intros H. apply NoDup_cons in H as [H _]. apply H, list_elem_of_here.
Qed.

(** A rename that finds the file with another size stores the new size and
    leaves the directory size as it was: the counter says 10, the items sum
    to 20. *)
Lemma rename_resizes_item_without_counters :
  sizes_after
    (DirectoryAltered env0
       (fs_seq [one_file "a" 10; one_file "a" 10; one_file "b" 20])
       (queue [Added "a"; RenamedFrom "a"; RenamedTo "b"] empty_directory))
  = Some (10, 20).
Proof. vm_compute. reflexivity. Qed.

(** ** The theorems at work on small directories *)

Lemma no_item_in_empty_map (name : string) :
  forall k i, (∅ : gmap Z ItemInfo_t) !! k = Some i -> cFileName (wfd i) <> name.
Proof. intros k i H. by rewrite lookup_empty in H. Qed.

Lemma Consistent_directory_with name size :
  Consistent (directory_with name size).
Proof. apply Consistent_OnFileAdded, Consistent_empty_directory. Qed.


Lemma unresolved_RenamedFrom_example :
  OnFileRenamedOldName env0 (with_iRenamedItem 0 (directory_with "a" 5)) "ghost"
  = with_iRenamedItem 0 (directory_with "a" 5).
Proof.
  apply (unresolved_RenamedFrom_changes_nothing env0
           (with_iRenamedItem 0 (directory_with "a" 5)) "ghost").
  - reflexivity.
  - intros pidl [= <-]. vm_compute. reflexivity.
Defined.

Lemma FilesAdded_step_example :
  exists s1 s2,
    ProcessAlteredFile env0 no_files
      (with_FilesAdded ["a"] empty_directory) (Added "a") = Some s1
    /\ m_FilesAdded s1 = (["a"] ++ [StringCchCopy "a"])%list
    /\ ProcessAlteredFile env0 no_files s1 (Removed "a") = Some s2
    /\ m_FilesAdded s2 = erase_first "a" (m_FilesAdded s1).
Proof.
  exists (with_FilesAdded ["a"; "a"] empty_directory),
         (with_FilesAdded ["a"] empty_directory).
  pose proof (FilesAdded_step env0 no_files
                (with_FilesAdded ["a"] empty_directory) (Added "a")
                (with_FilesAdded ["a"; "a"] empty_directory) eq_refl)
    as (_ & _ & Hadd & _).
  pose proof (FilesAdded_step env0 no_files
                (with_FilesAdded ["a"; "a"] empty_directory) (Removed "a")
                (with_FilesAdded ["a"] empty_directory) eq_refl)
    as (_ & _ & _ & Hrem).
  split; [reflexivity|]. split; [|split; [reflexivity|]].
  - apply Hadd; [reflexivity | reflexivity | by left].
  - apply Hrem; [reflexivity | apply list_elem_of_here | by left].
Defined.

Lemma counters_example :
  exists s',
    DirectoryAltered env0
      (fs_seq [one_file "f" 3; one_file "f" 9; one_file "g" 4; no_files])
      (queue [Added "f"; Modified "f"; Added "g"; Removed "f"]
         empty_directory) = Some s'
    /\ totalDirSize s' = wrap64 (DirectorySize (m_itemInfoMap s'))
    /\ fileSelectionSize s'
       = wrap64 (SelectionSize (m_itemInfoMap s') (listView s')).
Proof.
  assert (Consistent (queue [Added "f"; Modified "f"; Added "g"; Removed "f"]
                        empty_directory)) as C
    by apply Consistent_with_AlteredList, Consistent_empty_directory.
  assert (Forall AddModifyRemove
            [Added "f"; Modified "f"; Added "g"; Removed "f"]) as Hall
    by (repeat constructor; unfold AddModifyRemove; cbn; auto).
  destruct (proj2 (counters_after_add_modify_remove env0
              (fs_seq [one_file "f" 3; one_file "f" 9; one_file "g" 4; no_files])
              _ C) Hall) as (s' & H1 & _ & H2 & H3 & _).
  exists s'. repeat split; assumption.
Defined.

Lemma fast_rename_example :
  (exists s',
     DirectoryAltered env0 (fs_seq [no_files; no_files; one_file "b.txt" 5])
       (FilesModified FILE_ACTION_RENAMED_NEW_NAME "b.txt" 1
          (FilesModified FILE_ACTION_RENAMED_OLD_NAME "a.tmp" 1
             (FilesModified FILE_ACTION_ADDED "a.tmp" 1 empty_directory)))
     = Some s'
     /\ m_FilesAdded s' = []
     /\ size (ItemsNamed "b.txt" (m_itemInfoMap s')) = 1%nat).
Proof.
  apply (fast_rename_race env0
           (fs_seq [no_files; no_files; one_file "b.txt" 5])
           (fs_seq [no_files; one_file "b.txt" 5])
           empty_directory "a.tmp" "b.txt" (plain_file "b.txt" 5)).
  - apply Consistent_empty_directory.
  - reflexivity.
  - reflexivity.
  - unfold MAX_PATH. cbn. lia.
  - unfold MAX_PATH. cbn. lia.
  - apply no_item_in_empty_map.
  - reflexivity.
  - reflexivity.
  - reflexivity.
  - reflexivity.
Defined.

Lemma modify_before_insert_example :
  (exists s',
     DirectoryAltered env0 (fs_seq [one_file "f" 3; one_file "f" 9])
       (queue [Added "f"; Modified "f"] empty_directory) = Some s'
     /\ m_itemInfoMap s'
        = <[0 := mkItemInfo "f" (plain_file "f" 9)]> ∅
     /\ totalDirSize s' = wrap64 (0 + FileSize (plain_file "f" 9)))
  /\ (exists t',
        OnFileModified (one_file "f" 9)
          (with_awaitingAddList
             [mkAwaiting (-1) 0 false (-1); mkAwaiting (-1) 1 false (-1)]
             (with_totalDirSize 7
                (with_itemInfoMap
                   (<[1 := mkItemInfo "f" (plain_file "f" 3)]>
                      (<[0 := mkItemInfo "g" (plain_file "g" 4)]> ∅))
                   empty_directory))) "f" = Some t'
        /\ m_itemInfoMap t'
           = <[1 := mkItemInfo "f" (plain_file "f" 9)]>
               (<[1 := mkItemInfo "f" (plain_file "f" 3)]>
                  (<[0 := mkItemInfo "g" (plain_file "g" 4)]> ∅))
        /\ totalDirSize t' = wrap64 (7 - 3 + 9)).
Proof.
  assert (Consistent (queue [Added "f"; Modified "f"] empty_directory)) as C
    by apply Consistent_with_AlteredList, Consistent_empty_directory.
  pose proof (modify_before_insert env0
                (fs_seq [one_file "f" 3; one_file "f" 9])
                (queue [Added "f"; Modified "f"] empty_directory) "f"
                (plain_file "f" 3) (plain_file "f" 9) C eq_refl
                (no_item_in_empty_map "f") eq_refl eq_refl eq_refl)
    as [(s' & H1 & H2 & H3 & _) Hawait].
  split; [exists s'; repeat split; assumption|].
  set (t := with_awaitingAddList
              [mkAwaiting (-1) 0 false (-1); mkAwaiting (-1) 1 false (-1)]
              (with_totalDirSize 7
                 (with_itemInfoMap
                    (<[1 := mkItemInfo "f" (plain_file "f" 3)]>
                       (<[0 := mkItemInfo "g" (plain_file "g" 4)]> ∅))
                    empty_directory))).
  assert (LocateFileItemIndex t "f" = -1) as Hrow by (vm_compute; reflexivity).
  assert (Forall (OtherAwaiting (m_itemInfoMap t) "f")
            [mkAwaiting (-1) 0 false (-1)]) as Hall.
  { constructor; [|constructor].
    exists (mkItemInfo "g" (plain_file "g" 4)).
    split; [vm_compute; reflexivity | discriminate]. }
  assert (m_itemInfoMap t !! iItemInternal (mkAwaiting (-1) 1 false (-1))
          = Some (mkItemInfo "f" (plain_file "f" 3))) as Hinfo
    by (vm_compute; reflexivity).
  assert (iItemInternal (mkAwaiting (-1) 1 false (-1)) <> -1) as Hne
    by (cbn; lia).
  destruct (Hawait (one_file "f" 9) t [mkAwaiting (-1) 0 false (-1)]
              (mkAwaiting (-1) 1 false (-1)) []
              (mkItemInfo "f" (plain_file "f" 3)) (plain_file "f" 9)
              Hrow eq_refl Hall Hinfo eq_refl Hne eq_refl)
    as (t' & Hrun & Hm & Htot).
  exists t'. split; [exact Hrun|]. split; [exact Hm|exact Htot].
Defined.

Lemma Modified_of_vanished_file_example :
  exists s',
    OnFileModified no_files (directory_with "f" 3) "f" = Some s'
    /\ totalDirSize s' = wrap64 (3 - 3)
    /\ m_itemInfoMap s'
       = <[0 := zero_size (mkItemInfo "f" (plain_file "f" 3))]>
           (m_itemInfoMap (directory_with "f" 3)).
Proof.
  assert (LocateModifiedItem (directory_with "f" 3) "f" = Some 0) as Hloc
    by (vm_compute; reflexivity).
  assert (0 <> -1) as Hid by lia.
  assert (m_itemInfoMap (directory_with "f" 3) !! 0
          = Some (mkItemInfo "f" (plain_file "f" 3))) as Hinfo
    by (vm_compute; reflexivity).
  destruct (Modified_of_vanished_file no_files (directory_with "f" 3) "f" 0
              (mkItemInfo "f" (plain_file "f" 3)) Hloc Hid Hinfo eq_refl)
    as (s' & H1 & H2 & _ & H3 & _).
  exists s'. repeat split; assumption.
Defined.


Lemma stale_notification_example :
  ProcessAlteredFile env0 (one_file "x" 1) reopened_directory (Added "x")
  = Some reopened_directory
  /\ ApplyAlteredList env0 (fs_seq [one_file "x" 1]) 0
       [Added "x"] reopened_directory
     = Some reopened_directory.
Proof.
  assert (iFolderIndex (Added "x") <> m_uniqueFolderId reopened_directory)
    as Hstale by (cbn; lia).
  destruct (stale_notification_is_discarded env0 (fs_seq [one_file "x" 1])
              0 (Added "x") [] reopened_directory Hstale) as [H1 H2].
  split; [apply H1 | exact H2].
Defined.

Lemma selection_after_batch_example :
  exists s' D,
    DirectoryAltered env0 (fs_seq [one_file "f" 3; one_file "g" 9])
      (queue [Added "f"; Added "g"]
         (with_FileSelectionList ["g"; "h"; "f"] empty_directory)) = Some s'
    /\ m_FileSelectionList s' = ["h"]
    /\ List.filter is_select D = [LvSelectItem 1; LvSelectItem 0]
    /\ List.filter is_focus D = [LvFocusItem 1].
Proof.
  destruct (ApplyAlteredList env0 (fs_seq [one_file "f" 3; one_file "g" 9]) 0
              (m_AlteredList
                 (queue [Added "f"; Added "g"]
                    (with_FileSelectionList ["g"; "h"; "f"] empty_directory)))
              (queue [Added "f"; Added "g"]
                 (with_FileSelectionList ["g"; "h"; "f"] empty_directory)))
    as [s1|] eqn:Hrun; [|vm_compute in Hrun; discriminate].
  destruct (proj1 (selection_after_batch env0 _ _ s1 Hrun))
    as (s' & D & H1 & H2 & _ & H3 & H4 & _).
  vm_compute in Hrun. injection Hrun as <-.
  vm_compute in H2. vm_compute in H3. vm_compute in H4.
  exists s', D. split; [exact H1|]. split; [exact H2|].
  split; [exact H3 | exact H4].
Defined.

(** * Further properties of the handlers *)

Local Close Scope string_scope.

(** ** The queue *)

Lemma length_substring_0 n s :
  String.length (substring 0 n s) = Nat.min n (String.length s).
Proof.
  revert s. induction n as [|n IH]; intros s.
  - by destruct s.
  - destruct s as [|c s]; [reflexivity|]. cbn. by rewrite IH.
Qed.

Lemma prefix_substring_0 n s : String.prefix (substring 0 n s) s = true.
Proof.
  revert s. induction n as [|n IH]; intros s.
  - by destruct s.
  - destruct s as [|c s]; [reflexivity|]. cbn.
    destruct (Ascii.ascii_dec c c); [apply IH | done].
Qed.

Lemma prefix_refl s : String.prefix s s = true.
Proof.
  induction s as [|c s IH]; [reflexivity|]. cbn.
  destruct (Ascii.ascii_dec c c); [exact IH | done].
Qed.

(** X1.  A name copied with [StringCchCopy] into a buffer of [MAX_PATH]
    characters is stored unchanged when it has fewer than [MAX_PATH]
    characters, and cut to its first [MAX_PATH - 1] characters otherwise: the
    copy is always shorter than [MAX_PATH], is a prefix of the original, and
    copying it again changes nothing.  This copy is the name [FilesModified]
    puts into the queue and the name [OnFileAdded] records for an add that
    does not resolve. *)
Theorem StringCchCopy_bounds src :
  (String.length (StringCchCopy src) < MAX_PATH)%nat
  /\ String.prefix (StringCchCopy src) src = true
  /\ StringCchCopy (StringCchCopy src) = StringCchCopy src
  /\ ((String.length src < MAX_PATH)%nat -> StringCchCopy src = src)
  /\ ((MAX_PATH <= String.length src)%nat ->
      String.length (StringCchCopy src) = (MAX_PATH - 1)%nat)
  /\ (forall Action folder s,
        m_AlteredList (FilesModified Action src folder s)
        = (m_AlteredList s
           ++ [mkAltered (StringCchCopy src) Action folder])%list)
  /\ (forall E fs s,
        fs src = None ->
        m_FilesAdded (OnFileAdded E fs s src)
        = (m_FilesAdded s ++ [StringCchCopy src])%list).
Proof.
  assert (forall t, (String.length (StringCchCopy t) < MAX_PATH)%nat) as Hlen.
  { intros t. unfold StringCchCopy.
    destruct (Nat.ltb_spec (String.length t) MAX_PATH); [done|].
    rewrite length_substring_0. unfold MAX_PATH in *. lia. }
  split; [apply Hlen|]. split.
  { unfold StringCchCopy.
    destruct (String.length src <? MAX_PATH)%nat;
      [apply prefix_refl | apply prefix_substring_0]. }
  split; [apply StringCchCopy_short, Hlen|].
  split; [apply StringCchCopy_short|]. split.
  { intros Hlong. unfold StringCchCopy.
    destruct (Nat.ltb_spec (String.length src) MAX_PATH); [lia|].
    rewrite length_substring_0. lia. }
  split; [reflexivity|].
  intros E fs s Hfs. unfold OnFileAdded, GetItemInformation. by rewrite Hfs.
Qed.

Lemma StringCchCopy_example :
  StringCchCopy "a.tmp" = "a.tmp"%string
  /\ m_FilesAdded (OnFileAdded env0 no_files empty_directory "a.tmp")
     = [StringCchCopy "a.tmp"].
Proof.
  destruct (StringCchCopy_bounds "a.tmp") as (_ & _ & _ & H1 & _ & _ & H2).
  split.
  - apply H1. unfold MAX_PATH. cbn. lia.
  - apply (H2 env0 no_files empty_directory eq_refl).
Defined.

(** X2.  A burst of notifications handed to [FilesModified] under one event
    id leaves a single armed timer for that id, whatever the size of the
    burst, and the notifications in the queue behind those already there, in
    the order they came, each with its name cut to the buffer; nothing else
    of the state changes.  The timer id is the event id converted to
    [UINT_PTR]: the event id itself when it is not negative, [2^64] more when
    it is.  When the timer fires, [TimerProc] disarms it. *)
Theorem burst_is_coalesced EventId timers s notes :
  notes <> [] ->
  let id := UINT_PTR_of_int EventId in
  fold_left (FilesModifiedArmed EventId) notes (timers, s)
  = ({[id]} ∪ timers,
     with_AlteredList
       (m_AlteredList s
        ++ map (fun n => mkAltered (StringCchCopy (note_name n))
                           (note_action n) (note_folder n)) notes)%list s)
  /\ (0 <= EventId < 2 ^ 31 -> id = EventId)
  /\ (- 2 ^ 31 <= EventId < 0 -> id = 2 ^ 64 + EventId)
  /\ (id ∉ fst (TimerProc id ({[id]} ∪ timers)))
  /\ fst (TimerProc id ({[id]} ∪ timers)) = timers ∖ {[id]}.
Proof.
  intros Hne id. split; [|split; [|split; [|split]]].
  - assert (forall ns ts t,
              fold_left (FilesModifiedArmed EventId) ns (ts, t)
              = ((if ns is [] then ts else {[id]} ∪ ts),
                 with_AlteredList
                   (m_AlteredList t
                    ++ map (fun n => mkAltered (StringCchCopy (note_name n))
                                       (note_action n) (note_folder n)) ns)%list
                   t)) as Hgen.
    { induction ns as [|n ns IH]; intros ts t.
      - cbn. rewrite app_nil_r. by destruct t.
      - cbn [fold_left]. unfold FilesModifiedArmed at 2. cbn [fst snd].
        rewrite IH. unfold FilesModified, SetTimer. fold id.
        cbn [m_AlteredList with_AlteredList]. f_equal.
        + destruct ns; [reflexivity|].
          apply set_eq. intros x. rewrite !elem_of_union. tauto.
        + rewrite <- app_assoc. reflexivity. }
    rewrite Hgen. by destruct notes.
  - intros Hpos. subst id. unfold UINT_PTR_of_int. apply Z.mod_small. lia.
  - intros Hneg. subst id. unfold UINT_PTR_of_int.
    rewrite <- (Z_mod_plus_full _ 1 (2 ^ 64)). rewrite Z.mod_small; lia.
  - unfold TimerProc, KillTimer. cbn [fst].
    rewrite elem_of_difference, elem_of_singleton. tauto.
  - unfold TimerProc, KillTimer. cbn [fst]. apply set_eq. intros x.
    rewrite !elem_of_difference, elem_of_union. tauto.
Qed.

Lemma burst_is_coalesced_example :
  fst (fold_left (FilesModifiedArmed (-1))
         [mkNotification FILE_ACTION_ADDED "a" 1;
          mkNotification FILE_ACTION_MODIFIED "a" 1;
          mkNotification FILE_ACTION_REMOVED "a" 1] (∅, empty_directory))
  = {[UINT_PTR_of_int (-1)]} ∪ ∅
  /\ UINT_PTR_of_int (-1) = 2 ^ 64 + -1.
Proof.
  pose proof (burst_is_coalesced (-1) ∅ empty_directory
                [mkNotification FILE_ACTION_ADDED "a" 1;
                 mkNotification FILE_ACTION_MODIFIED "a" 1;
                 mkNotification FILE_ACTION_REMOVED "a" 1]) as H.
  cbn zeta in H. destruct H as (H1 & _ & H2 & _); [discriminate|].
  split; [by rewrite H1 | apply H2; lia].
Defined.

(** X3.  The [switch] has no default: a notification whose action is none
    of the five file actions is skipped, even for the current folder. *)
Theorem unknown_action_is_skipped E fs s af :
  dwAction af <> FILE_ACTION_ADDED ->
  dwAction af <> FILE_ACTION_MODIFIED ->
  dwAction af <> FILE_ACTION_REMOVED ->
  dwAction af <> FILE_ACTION_RENAMED_OLD_NAME ->
  dwAction af <> FILE_ACTION_RENAMED_NEW_NAME ->
  ProcessAlteredFile E fs s af = Some s.
Proof.
  intros H1 H2 H3 H4 H5. unfold ProcessAlteredFile.
  destruct (_ =? m_uniqueFolderId s); [|reflexivity].
  repeat match goal with
         | |- context [?a =? ?b] => destruct (Z.eqb_spec a b); [done|]
         end.
  reflexivity.
Qed.

Lemma unknown_action_example :
  ProcessAlteredFile env0 (one_file "x" 1) (directory_with "x" 1)
    (mkAltered "x" 0 1)
  = Some (directory_with "x" 1).
Proof.
  apply unknown_action_is_skipped; cbn; unfold FILE_ACTION_ADDED,
    FILE_ACTION_MODIFIED, FILE_ACTION_REMOVED, FILE_ACTION_RENAMED_OLD_NAME,
    FILE_ACTION_RENAMED_NEW_NAME; lia.
Defined.

(** X4.  The loop over the queue composes: running it over two queues one
    after the other, the second against the file systems that follow those
    of the first, is running it over their concatenation; a throw in the
    first part is a throw of the whole. *)
Theorem ApplyAlteredList_app E fss l1 l2 :
  forall k s,
    ApplyAlteredList E fss k (l1 ++ l2)%list s
    = match ApplyAlteredList E fss k l1 s with
      | Some s1 => ApplyAlteredList E fss (k + length l1) l2 s1
      | None => None
      end.
Proof.
  induction l1 as [|af l1 IH]; intros k s.
  - cbn. by rewrite Nat.add_0_r.
  - cbn [app ApplyAlteredList length].
    destruct (ProcessAlteredFile E (fss k) s af) as [s1|]; [|reflexivity].
    rewrite IH. by rewrite Nat.add_succ_r.
Qed.

(** ** What a batch leaves alone *)

Lemma Frame_refl s : Frame s s.
Proof. unfold Frame. repeat split; lia. Qed.

Lemma Frame_trans s1 s2 s3 : Frame s1 s2 -> Frame s2 s3 -> Frame s1 s3.
Proof.
  unfold Frame. intros (?&?&?&?&?) (?&?&?&?&?).
  repeat split; try congruence. lia.
Qed.

Lemma SameBookkeeping_Frame s s' :
  SameBookkeeping s s' -> m_itemIDCounter s <= m_itemIDCounter s' -> Frame s s'.
Proof. intros (?&?&?&?&?&?&?) ?. by repeat split. Qed.

Lemma InsertAwaitingItems_fold_counter l s :
  m_itemIDCounter (fold_left InsertAwaitingItem l s) = m_itemIDCounter s.
Proof.
  revert s. induction l as [|a l IH]; intros s; [reflexivity|].
  cbn [fold_left]. by rewrite IH.
Qed.

Lemma Frame_OnFileAdded E fs s name : Frame s (OnFileAdded E fs s name).
Proof.
  destruct (fs name) as [w|] eqn:Hfs.
  - apply SameBookkeeping_Frame;
      [apply (OnFileAdded_resolved_bookkeeping E fs s name w Hfs)|].
    unfold OnFileAdded, GetItemInformation. rewrite Hfs.
    cbn [AddItemInternal]. unfold InsertAwaitingItems.
    cbn [m_itemIDCounter with_awaitingAddList].
    rewrite InsertAwaitingItems_fold_counter.
    destruct (insertSorted E && negb _); cbn; lia.
  - unfold OnFileAdded, GetItemInformation. rewrite Hfs.
    unfold Frame. cbn. repeat split; lia.
Qed.

Lemma Frame_OnFileRemoved s name : Frame s (OnFileRemoved s name).
Proof.
  unfold OnFileRemoved. destruct (contains _ _).
  - unfold Frame. cbn. repeat split; lia.
  - destruct (_ =? -1); [apply Frame_refl|].
    apply SameBookkeeping_Frame; [apply RemoveItem_bookkeeping|].
    rewrite (proj2 (RemoveItem_rest s _)). lia.
Qed.

Lemma OnFileModified_counter fs s name s' :
  OnFileModified fs s name = Some s' -> m_itemIDCounter s' = m_itemIDCounter s.
Proof.
  unfold OnFileModified.
  destruct (LocateModifiedItem s name) as [id|]; [|done].
  destruct (id =? -1); [by intros [= <-]|].
  destruct (m_itemInfoMap s !! id) as [info|]; [|done].
  destruct (fs name); intros [= <-];
    repeat (match goal with |- context [if ?b then _ else _] => destruct b end);
    reflexivity.
Qed.

Lemma RenameItem_counter E fs s id name :
  m_itemIDCounter (RenameItem E fs s id name) = m_itemIDCounter s.
Proof.
  unfold RenameItem. destruct (id =? -1); [reflexivity|].
  destruct (GetItemInformation fs name) as [info|]; [|reflexivity].
  destruct (LocateItemByInternalIndex _ _).
  - by destruct (IsFileFiltered E info).
  - by destruct (negb _).
Qed.

Lemma Frame_ProcessAlteredFile E fs s af s' :
  ProcessAlteredFile E fs s af = Some s' -> Frame s s'.
Proof.
  unfold ProcessAlteredFile.
  destruct (_ =? m_uniqueFolderId s); [|intros [= <-]; apply Frame_refl].
  destruct (_ =? FILE_ACTION_ADDED);
    [intros [= <-]; apply Frame_OnFileAdded|].
  destruct (_ =? FILE_ACTION_MODIFIED).
  { intros H. apply SameBookkeeping_Frame;
      [apply (OnFileModified_bookkeeping _ _ _ _ H)|].
    rewrite (OnFileModified_counter _ _ _ _ H). lia. }
  destruct (_ =? FILE_ACTION_REMOVED);
    [intros [= <-]; apply Frame_OnFileRemoved|].
  destruct (_ =? FILE_ACTION_RENAMED_OLD_NAME).
  { intros [= <-]. unfold OnFileRenamedOldName.
    destruct (contains _ _); [unfold Frame; cbn; repeat split; lia|].
    destruct (CreateSimplePidl E _); [|apply Frame_refl].
    destruct (GetItemInternalIndexForPidl s _); [|apply Frame_refl].
    unfold Frame. cbn. repeat split; lia. }
  destruct (_ =? FILE_ACTION_RENAMED_NEW_NAME); [|intros [= <-]; apply Frame_refl].
  intros [= <-]. unfold OnFileRenamedNewName.
  destruct (g_bNewFileRenamed s).
  - pose proof (Frame_OnFileAdded E fs s (szFileName af)) as (?&?&?&?&?).
    by repeat split.
  - apply SameBookkeeping_Frame; [apply RenameItem_bookkeeping|].
    rewrite RenameItem_counter. lia.
Qed.

Lemma Frame_ApplyAlteredList E fss l :
  forall k s s', ApplyAlteredList E fss k l s = Some s' -> Frame s s'.
Proof.
  induction l as [|af l IH]; intros k s s'.
  - intros [= <-]. apply Frame_refl.
  - cbn [ApplyAlteredList].
    destruct (ProcessAlteredFile E (fss k) s af) as [s1|] eqn:H1; [|done].
    intros H. eapply Frame_trans; [|by eapply IH].
    by eapply Frame_ProcessAlteredFile.
Qed.

Lemma SelectItem_counter s index :
  m_itemIDCounter (SelectItem s index) = m_itemIDCounter s.
Proof.
  unfold SelectItem. destruct (ListView_GetItem _ _) as [r|]; [|reflexivity].
  destruct (lvis_selected r); [reflexivity|].
  by destruct (_ !! lParam r).
Qed.

Lemma SelectFiles_counter names :
  forall s b, m_itemIDCounter (fst (SelectFiles s names b)) = m_itemIDCounter s.
Proof.
  induction names as [|name rest IH]; intros s b; [reflexivity|].
  cbn [SelectFiles]. destruct (_ =? -1).
  - specialize (IH s b). by destruct (SelectFiles s rest b).
  - rewrite IH. destruct b; cbn; apply SelectItem_counter.
Qed.

Lemma sublist_List_filter {A} (f : A -> bool) (l : list A) :
  sublist (List.filter f l) l.
Proof.
  induction l as [|x l IH]; [constructor|]. cbn.
  destruct (f x); by constructor.
Qed.

Lemma Frame_FinishBatch s :
  m_uniqueFolderId (FinishBatch s) = m_uniqueFolderId s
  /\ m_DroppedFileNameList (FinishBatch s) = m_DroppedFileNameList s
  /\ m_itemIDCounter (FinishBatch s) = m_itemIDCounter s.
Proof.
  destruct (FinishBatch_spec s) as (_ & _ & _ & Hf & _).
  split; [exact Hf|]. unfold FinishBatch.
  pose proof (SelectFiles_counter (m_FileSelectionList (with_AlteredList [] s))
                (with_AlteredList [] s) false) as Hc.
  destruct (SelectFiles _ _ false) as [s3 kept] eqn:Hsel.
  destruct (SelectFiles_spec _ _ _ _ _ Hsel) as (_ & _ & Hbk & _).
  destruct Hbk as (_ & _ & Hd & _). split; [exact Hd | exact Hc].
Qed.

(** X5.  Whatever the notifications of a batch, [DirectoryAltered] returns
    with an empty queue, the folder id and the list of dropped names as they
    were, and a selection list from which names were only taken away. *)
Theorem batch_frame E fss s s' :
  DirectoryAltered E fss s = Some s' ->
  m_AlteredList s' = []
  /\ m_uniqueFolderId s' = m_uniqueFolderId s
  /\ m_DroppedFileNameList s' = m_DroppedFileNameList s
  /\ sublist (m_FileSelectionList s') (m_FileSelectionList s).
Proof.
  unfold DirectoryAltered.
  destruct (ApplyAlteredList E fss 0 (m_AlteredList s) s) as [s1|] eqn:Hrun;
    [|done].
  intros [= <-].
  destruct (Frame_ApplyAlteredList E fss _ _ _ _ Hrun) as (Hf & Hd & Hl & _ & Hc).
  destruct (FinishBatch_spec s1) as (_ & _ & _ & _ & _ & _ & _ & Hq & Hk).
  destruct (Frame_FinishBatch s1) as (Hf' & Hd' & Hc').
  split; [exact Hq|]. split; [congruence|]. split; [congruence|].
  rewrite Hk, <- Hl. apply sublist_List_filter.
Qed.

Lemma batch_frame_example :
  exists s',
    DirectoryAltered env0 (fs_seq [one_file "f" 3; no_files])
      (queue [Added "f"; Added "g"] empty_directory) = Some s'
    /\ m_AlteredList s' = []
    /\ m_uniqueFolderId s' = 1.
Proof.
  destruct (DirectoryAltered env0 (fs_seq [one_file "f" 3; no_files])
              (queue [Added "f"; Added "g"] empty_directory))
    as [s'|] eqn:Hrun; [|vm_compute in Hrun; discriminate].
  destruct (batch_frame env0 _ _ s' Hrun) as (H1 & H2 & _).
  exists s'. split; [reflexivity|]. split; [exact H1 | exact H2].
Defined.

Lemma SelectFiles_unresolved names :
  forall s b,
    Forall (fun name => unresolved s name = true) names ->
    SelectFiles s names b = (s, names).
Proof.
  induction names as [|name rest IH]; intros s b Hall; [reflexivity|].
  apply Forall_cons in Hall as [Hn Hrest]. cbn [SelectFiles].
  unfold unresolved in Hn. rewrite Hn. by rewrite (IH s b Hrest).
Qed.

Lemma FinishBatch_idempotent s : FinishBatch (FinishBatch s) = FinishBatch s.
Proof.
  destruct (FinishBatch_spec s) as (Hsi & _ & _ & _ & _ & _ & _ & Hq & Hk).
  set (t := FinishBatch s) in *.
  assert (Forall (fun name => unresolved (with_AlteredList [] t) name = true)
            (m_FileSelectionList t)) as Hall.
  { rewrite Hk. apply Forall_forall. intros name Hin.
    apply list_elem_of_In, filter_In in Hin as [_ Hun].
    unfold unresolved in *.
    change (LocateFileItemIndex (with_AlteredList [] t) name)
      with (LocateFileItemIndex t name).
    by rewrite (LocateFileItemIndex_SameItems s t name Hsi). }
  unfold FinishBatch at 1.
  change (m_FileSelectionList (with_AlteredList [] t))
    with (m_FileSelectionList t).
  rewrite (SelectFiles_unresolved _ _ false Hall).
  destruct t. cbn in Hq. subst. reflexivity.
Qed.

(** X6.  A batch without notifications right after a batch is a no-op: the
    names still on the selection list have no row, the queue is empty, and
    [DirectoryAltered] returns the state it was given. *)
Theorem idle_batch_changes_nothing E fss fss' s s' :
  DirectoryAltered E fss s = Some s' ->
  DirectoryAltered E fss' s' = Some s'.
Proof.
  unfold DirectoryAltered at 1.
  destruct (ApplyAlteredList E fss 0 (m_AlteredList s) s) as [s1|]; [|done].
  intros [= <-]. unfold DirectoryAltered.
  destruct (FinishBatch_spec s1) as (_ & _ & _ & _ & _ & _ & _ & Hq & _).
  rewrite Hq. cbn [ApplyAlteredList]. by rewrite FinishBatch_idempotent.
Qed.

Lemma idle_batch_example :
  exists s',
    DirectoryAltered env0 (fs_seq [one_file "f" 3])
      (queue [Added "f"] (with_FileSelectionList ["f"; "g"] empty_directory))
    = Some s'
    /\ DirectoryAltered env0 (fs_seq []) s' = Some s'.
Proof.
  destruct (DirectoryAltered env0 (fs_seq [one_file "f" 3])
              (queue [Added "f"]
                 (with_FileSelectionList ["f"; "g"] empty_directory)))
    as [s'|] eqn:Hrun; [|vm_compute in Hrun; discriminate].
  exists s'. split; [reflexivity|].
  apply (idle_batch_changes_nothing env0 _ (fs_seq []) _ s' Hrun).
Defined.

(** ** Renames *)

(** X7.  A rename nobody was waiting for is dropped: when no marker is set,
    the fast-rename flag is down and the old name is neither a pending add
    nor an item of the map, the rename-from / rename-to pair leaves the
    whole state as it was, whether or not the new name is on disk. *)
Theorem unexpected_rename_is_dropped E fs s old new :
  g_iRenamedItem s = -1 -> g_bNewFileRenamed s = false ->
  contains old (m_FilesAdded s) = false ->
  (forall pidl, CreateSimplePidl E old = Some pidl ->
                GetItemInternalIndexForPidl s pidl = None) ->
  OnFileRenamedNewName E fs (OnFileRenamedOldName E s old) new = s.
Proof.
  intros Hmarker Hflag Hledger Hmap.
  assert (OnFileRenamedOldName E s old = s) as ->.
  { unfold OnFileRenamedOldName. rewrite Hledger.
    destruct (CreateSimplePidl E old) as [pidl|]; [|reflexivity].
    by rewrite (Hmap pidl eq_refl). }
  unfold OnFileRenamedNewName, RenameItem. by rewrite Hflag, Hmarker.
Qed.

Lemma unexpected_rename_example :
  OnFileRenamedNewName env0 (one_file "y" 7)
    (OnFileRenamedOldName env0 (directory_with "a" 5) "x") "y"
  = directory_with "a" 5.
Proof.
  apply unexpected_rename_is_dropped.
  - reflexivity.
  - reflexivity.
  - reflexivity.
  - intros pidl [= <-]. vm_compute. reflexivity.
Defined.

Lemma RenameItem_map E fs s id name w :
  id <> -1 -> fs name = Some w ->
  IsFileFiltered E (mkItemInfo name w) = false ->
  m_itemInfoMap (RenameItem E fs s id name)
  = <[id := mkItemInfo name w]> (m_itemInfoMap s)
  /\ totalDirSize (RenameItem E fs s id name) = totalDirSize s
  /\ awaitingAddList (RenameItem E fs s id name) = awaitingAddList s.
Proof.
  intros Hid Hfs Hshown. unfold RenameItem, GetItemInformation.
  destruct (Z.eqb_spec id (-1)); [done|]. rewrite Hfs, Hshown.
  by destruct (LocateItemByInternalIndex _ _).
Qed.

(** X8.  A rename keeps the identity of the item.  When the old name
    resolves to the item [k] and the new name is on disk and passes the
    filter, the rename-from / rename-to pair puts the data of the new name
    under the same id [k]; all other items, the set of ids, the id counter,
    the directory size and the pending adds are as before.  When the new
    name is not on disk the map is untouched and only the marker remembers
    [k]. *)
Theorem rename_keeps_identity E fs s old new pidl k :
  contains old (m_FilesAdded s) = false ->
  CreateSimplePidl E old = Some pidl ->
  GetItemInternalIndexForPidl s pidl = Some k -> k <> -1 ->
  g_bNewFileRenamed s = false ->
  let s' := OnFileRenamedNewName E fs (OnFileRenamedOldName E s old) new in
  match fs new with
  | Some w =>
      IsFileFiltered E (mkItemInfo new w) = false ->
      m_itemInfoMap s' = <[k := mkItemInfo new w]> (m_itemInfoMap s)
      /\ dom (m_itemInfoMap s') = dom (m_itemInfoMap s)
      /\ m_itemIDCounter s' = m_itemIDCounter s
      /\ totalDirSize s' = totalDirSize s
      /\ m_FilesAdded s' = m_FilesAdded s
  | None => s' = with_iRenamedItem k s
  end.
Proof.
  intros Hledger Hpidl Hk Hne Hflag s'.
  assert (OnFileRenamedOldName E s old = with_iRenamedItem k s) as Hold.
  { unfold OnFileRenamedOldName. by rewrite Hledger, Hpidl, Hk. }
  assert (s' = RenameItem E fs (with_iRenamedItem k s) k new) as Hs'.
  { subst s'. rewrite Hold. unfold OnFileRenamedNewName.
    cbn [g_bNewFileRenamed g_iRenamedItem with_iRenamedItem].
    by rewrite Hflag. }
  destruct (fs new) as [w|] eqn:Hfs.
  - intros Hshown.
    destruct (RenameItem_map E fs (with_iRenamedItem k s) k new w Hne Hfs
                Hshown) as (Hm & Htot & _).
    rewrite Hs'. split; [exact Hm|]. split; [|split; [|split]].
    + rewrite Hm. cbn [m_itemInfoMap with_iRenamedItem].
      apply GetItemInternalIndexForPidl_Some in Hk as (i & Hi & _).
      rewrite dom_insert_L. apply elem_of_dom_2 in Hi.
      apply set_eq. intros x. rewrite elem_of_union, elem_of_singleton.
      split; [intros [->|?]; done | by right].
    + exact (RenameItem_counter E fs (with_iRenamedItem k s) k new).
    + exact Htot.
    + exact (proj1 (proj2 (RenameItem_bookkeeping E fs
                             (with_iRenamedItem k s) k new))).
  - rewrite Hs'. unfold RenameItem, GetItemInformation.
    destruct (Z.eqb_spec k (-1)); [done|]. by rewrite Hfs.
Qed.

Lemma rename_keeps_identity_example :
  m_itemInfoMap
    (OnFileRenamedNewName env0 (one_file "b" 5)
       (OnFileRenamedOldName env0 (directory_with "a" 5) "a") "b")
  = <[0 := mkItemInfo "b" (plain_file "b" 5)]>
      (m_itemInfoMap (directory_with "a" 5)).
Proof.
  assert (GetItemInternalIndexForPidl (directory_with "a" 5) "a" = Some 0)
    as Hk by (vm_compute; reflexivity).
  assert (0 <> -1) as Hne by lia.
  pose proof (rename_keeps_identity env0 (one_file "b" 5)
                (directory_with "a" 5) "a" "b" "a" 0 eq_refl eq_refl Hk Hne
                eq_refl) as H.
  cbn zeta in H.
  change (one_file "b" 5 "b") with (Some (plain_file "b" 5)) in H.
  exact (proj1 (H eq_refl)).
Defined.

(** ** Pending adds *)

Lemma erase_first_app_last name l :
  name ∉ l -> erase_first name (l ++ [name]) = l.
Proof.
  induction l as [|x l IH]; intros Hout.
  - cbn. by rewrite String.eqb_refl.
  - apply not_elem_of_cons in Hout as [Hne Hout]. cbn.
    destruct (String.eqb_spec name x); [done|]. by rewrite IH.
Qed.

(** X9.  An add that does not resolve followed by the removal of the same
    name leaves no trace: for a name that fits the buffer and is not pending
    already, [OnFileRemoved] after [OnFileAdded] gives back the state before
    the add. *)
Theorem unresolved_add_then_remove E fs s name :
  fs name = None -> (String.length name < MAX_PATH)%nat ->
  name ∉ m_FilesAdded s ->
  OnFileRemoved (OnFileAdded E fs s name) name = s.
Proof.
  intros Hfs Hlen Hout.
  rewrite (OnFileAdded_unresolved E fs s name Hfs Hlen).
  unfold OnFileRemoved. cbn [m_FilesAdded with_FilesAdded].
  assert (contains name (m_FilesAdded s ++ [name]) = true) as ->.
  { apply contains_true, elem_of_app. right. apply list_elem_of_here. }
  rewrite (erase_first_app_last _ _ Hout). by destruct s.
Qed.

Lemma unresolved_add_then_remove_example :
  OnFileRemoved (OnFileAdded env0 no_files (directory_with "f" 3) "a.tmp")
    "a.tmp"
  = directory_with "f" 3.
Proof.
  apply unresolved_add_then_remove.
  - reflexivity.
  - unfold MAX_PATH. cbn. lia.
  - apply not_elem_of_nil.
Defined.

Lemma erase_first_counts name l :
  name ∈ l ->
  (length (erase_first name l) + 1 = length l)%nat
  /\ (count_occ string_dec (erase_first name l) name + 1
      = count_occ string_dec l name)%nat
  /\ (forall other, other <> name ->
        count_occ string_dec (erase_first name l) other
        = count_occ string_dec l other)
  /\ sublist (erase_first name l) l.
Proof.
  induction l as [|x l IH]; intros Hin; [by apply elem_of_nil in Hin|].
  cbn [erase_first]. destruct (String.eqb_spec name x) as [<-|Hne].
  - split; [cbn; lia|]. split.
    { cbn. destruct (string_dec name name); [lia|done]. }
    split.
    { intros other Ho. cbn. destruct (string_dec name other); [|done].
      by subst. }
    by constructor.
  - apply elem_of_cons in Hin as [?|Hin]; [done|].
    destruct (IH Hin) as (Hl & Hc & Ho & Hs).
    split; [cbn; lia|]. split.
    { cbn. destruct (string_dec x name); [by subst|exact Hc]. }
    split.
    { intros other Hother. cbn. rewrite (Ho other Hother). reflexivity. }
    by constructor.
Qed.

Lemma erase_first_split name l :
  name ∈ l ->
  exists l1 l2,
    l = (l1 ++ name :: l2)%list /\ (name ∉ l1)
    /\ erase_first name l = (l1 ++ l2)%list.
Proof.
  induction l as [|x l IH]; intros Hin; [by apply elem_of_nil in Hin|].
  cbn [erase_first]. destruct (String.eqb_spec name x) as [<-|Hne].
  - exists [], l. split; [reflexivity|]. split; [apply not_elem_of_nil|done].
  - apply elem_of_cons in Hin as [?|Hin]; [done|].
    destruct (IH Hin) as (l1 & l2 & -> & Hout & ->).
    exists (x :: l1), l2. split; [reflexivity|]. split; [|reflexivity].
    apply not_elem_of_cons. by split.
Qed.

(** X10.  A remove or rename-from notification whose name is pending takes
    exactly one entry off [m_FilesAdded]: the first with that name, the
    entries before and after it staying as they are.  The list gets one
    shorter, the name is listed once less, the other names as often as
    before and in their order; items, rows, counters and the marker are
    untouched, also when an item of that name exists.  The rename-from
    raises the fast-rename flag, the remove leaves it. *)
Theorem pending_name_is_taken_once E s name :
  name ∈ m_FilesAdded s ->
  (OnFileRemoved s name
   = with_FilesAdded (m_FilesAdded (OnFileRemoved s name)) s
   /\ OnFileRenamedOldName E s name
      = with_FilesAdded (m_FilesAdded (OnFileRemoved s name))
          (with_bNewFileRenamed true s))
  /\ (exists before after,
        m_FilesAdded s = (before ++ name :: after)%list
        /\ (name ∉ before)
        /\ m_FilesAdded (OnFileRemoved s name) = (before ++ after)%list)
  /\ (length (m_FilesAdded (OnFileRemoved s name)) + 1
      = length (m_FilesAdded s))%nat
  /\ (count_occ string_dec (m_FilesAdded (OnFileRemoved s name)) name + 1
      = count_occ string_dec (m_FilesAdded s) name)%nat
  /\ (forall other, other <> name ->
        count_occ string_dec (m_FilesAdded (OnFileRemoved s name)) other
        = count_occ string_dec (m_FilesAdded s) other)
  /\ sublist (m_FilesAdded (OnFileRemoved s name)) (m_FilesAdded s).
Proof.
  intros Hin. pose proof (proj2 (contains_true _ _) Hin) as Hc.
  assert (OnFileRemoved s name
          = with_FilesAdded (erase_first name (m_FilesAdded s)) s) as Hrem.
  { unfold OnFileRemoved. by rewrite Hc. }
  rewrite Hrem. cbn [m_FilesAdded with_FilesAdded]. split; [|split].
  - split; [reflexivity|]. unfold OnFileRenamedOldName. by rewrite Hc.
  - apply (erase_first_split name _ Hin).
  - apply (erase_first_counts name _ Hin).
Qed.

Lemma pending_name_example :
  exists before after,
    ["a"; "b"; "a"]%string = (before ++ "a"%string :: after)%list
    /\ ("a"%string ∉ before)
    /\ m_FilesAdded
         (OnFileRemoved
            (with_FilesAdded ["a"; "b"; "a"]%string empty_directory) "a")
       = (before ++ after)%list.
Proof.
  pose proof (pending_name_is_taken_once env0
                (with_FilesAdded ["a"; "b"; "a"]%string empty_directory) "a")
    as H.
  destruct H as (_ & H & _); [apply list_elem_of_here|]. exact H.
Defined.



(** ** Modifications *)

(** X12.  The search of the awaiting list stops at the first entry that
    decides it.  It throws exactly when it reaches an entry whose id is not
    in the map before any entry with the name; it returns the id of the
    first entry with the name otherwise, and [-1] when every entry is in the
    map under another name. *)
Theorem SearchAwaiting_result m l name :
  match SearchAwaiting m l name with
  | None =>
      exists l1 a l2,
        l = (l1 ++ a :: l2)%list /\ Forall (OtherAwaiting m name) l1
        /\ m !! iItemInternal a = None
  | Some id =>
      (Forall (OtherAwaiting m name) l /\ id = -1)
      \/ exists l1 a l2 info,
           l = (l1 ++ a :: l2)%list /\ Forall (OtherAwaiting m name) l1
           /\ id = iItemInternal a /\ m !! id = Some info
           /\ cFileName (wfd info) = name
  end.
Proof.
  induction l as [|a l IH]; cbn [SearchAwaiting].
  - left. by split.
  - destruct (m !! iItemInternal a) as [info|] eqn:Ha.
    + destruct (String.eqb_spec (cFileName (wfd info)) name) as [Hn|Hn].
      * right. exists [], a, l, info. by repeat split.
      * assert (OtherAwaiting m name a) as Hother by (by exists info).
        destruct (SearchAwaiting m l name) as [id|].
        -- destruct IH as [[Hall ->]|(l1 & b & l2 & i & -> & Hall & ? & ? & ?)].
           ++ left. split; [by constructor | reflexivity].
           ++ right. exists (a :: l1), b, l2, i.
              split; [reflexivity|]. split; [by constructor|]. by repeat split.
        -- destruct IH as (l1 & b & l2 & -> & Hall & Hb).
           exists (a :: l1), b, l2.
           split; [reflexivity|]. split; [by constructor | exact Hb].
    + exists [], a, l. by repeat split.
Qed.

Lemma SearchAwaiting_others m l name :
  Forall (OtherAwaiting m name) l -> SearchAwaiting m l name = Some (-1).
Proof.
  induction l as [|a l IH]; intros Hall; [reflexivity|].
  apply Forall_cons in Hall as [(info & Ha & Hn) Hall]. cbn.
  rewrite Ha. destruct (String.eqb_spec (cFileName (wfd info)) name); [done|].
  by apply IH.
Qed.

(** X13.  A modification of a name that has no row and that no awaiting
    item carries is dropped: [OnFileModified] returns the state it was
    given, without looking at the file system. *)
Theorem Modified_of_unknown_name fs s name :
  LocateFileItemIndex s name = -1 ->
  Forall (OtherAwaiting (m_itemInfoMap s) name) (awaitingAddList s) ->
  OnFileModified fs s name = Some s.
Proof.
  intros Hrow Hall. unfold OnFileModified, LocateModifiedItem.
  rewrite Hrow. cbn. by rewrite (SearchAwaiting_others _ _ _ Hall).
Qed.

Lemma Modified_of_unknown_name_example :
  OnFileModified (one_file "g" 4) (directory_with "f" 3) "g"
  = Some (directory_with "f" 3).
Proof.
  apply Modified_of_unknown_name.
  - vm_compute. reflexivity.
  - rewrite (nothing_awaiting _ (Consistent_directory_with "f" 3)).
    constructor.
Defined.

Lemma SearchAwaiting_known m l name :
  (forall a, a ∈ l -> is_Some (m !! iItemInternal a)) ->
  exists id, SearchAwaiting m l name = Some id
             /\ (id = -1 \/ is_Some (m !! id)).
Proof.
  induction l as [|a l IH]; intros Hall.
  - exists (-1). by split; [|left].
  - destruct (Hall a) as [info Ha]; [apply list_elem_of_here|].
    cbn. rewrite Ha. destruct (String.eqb _ _).
    + exists (iItemInternal a). split; [reflexivity|]. right. by exists info.
    + apply IH. intros b Hb. apply Hall. by apply list_elem_of_further.
Qed.

Lemma selected_SetCut (lv : list LVITEM) index b :
  lvis_selected <$> ListView_SetCut lv index b = lvis_selected <$> lv.
Proof.
  unfold ListView_SetCut.
  destruct (index =? -1); [|destruct (index <? 0); [reflexivity|]].
  - rewrite <- list_fmap_compose. reflexivity.
  - generalize (Z.to_nat index) as n. induction lv as [|r lv IH]; intros n.
    + reflexivity.
    + destruct n; simpl; [reflexivity|]. f_equal. apply IH.
Qed.

(** X14.  When the ids of all rows and of all awaiting items are in the
    map, [OnFileModified] returns normally, and what it returns has the same
    ids in the map, the same rows in the same order with the same selection,
    the same awaiting list, id counter and list view calls, and the same
    name lists and rename globals: a modification only rewrites the data of
    one item, the counters and the cut marks. *)
Theorem Modified_returns_and_keeps_ids fs s name :
  (forall a, a ∈ awaitingAddList s ->
             is_Some (m_itemInfoMap s !! iItemInternal a)) ->
  (forall r, r ∈ listView s -> is_Some (m_itemInfoMap s !! lParam r)) ->
  exists s',
    OnFileModified fs s name = Some s'
    /\ dom (m_itemInfoMap s') = dom (m_itemInfoMap s)
    /\ lParam <$> listView s' = lParam <$> listView s
    /\ lvis_selected <$> listView s' = lvis_selected <$> listView s
    /\ awaitingAddList s' = awaitingAddList s
    /\ m_itemIDCounter s' = m_itemIDCounter s
    /\ directives s' = directives s
    /\ SameBookkeeping s s'.
Proof.
  intros Haw Hrows.
  assert (exists id, LocateModifiedItem s name = Some id
                     /\ (id = -1 \/ is_Some (m_itemInfoMap s !! id)))
    as (id & Hloc & Hid).
  { unfold LocateModifiedItem. destruct (_ =? -1).
    - by apply SearchAwaiting_known.
    - eexists. split; [reflexivity|].
      destruct (ListView_GetItem _ _) as [r|] eqn:Hget; [|by left].
      right. apply Hrows. apply ListView_GetItem_Some in Hget as [_ Hget].
      by eapply list_elem_of_lookup_2. }
  destruct (Z.eq_dec id (-1)) as [->|Hne].
  - exists s. split.
    + unfold OnFileModified. by rewrite Hloc.
    + repeat split; reflexivity.
  - destruct Hid as [?|[info Hinfo]]; [done|].
    destruct (OnFileModified_located fs s name id info Hloc Hne Hinfo)
      as (s' & Hrun & Hm & _ & _ & Hlv & Ha & Hc & Hd).
    exists s'. split; [exact Hrun|]. split.
    { rewrite Hm, dom_insert_L. apply elem_of_dom_2 in Hinfo.
      apply set_eq. intros x. rewrite elem_of_union, elem_of_singleton.
      split; [intros [->|?]; done | by right]. }
    split; [destruct Hlv as [->|[b ->]]; [done | apply lParam_SetCut]|].
    split; [destruct Hlv as [->|[b ->]]; [done | apply selected_SetCut]|].
    split; [exact Ha|]. split; [exact Hc|]. split; [exact Hd|].
    by eapply OnFileModified_bookkeeping.
Qed.

Lemma Modified_returns_example :
  exists s',
    OnFileModified (one_file "f" 9) (directory_with "f" 3) "f" = Some s'
    /\ dom (m_itemInfoMap s') = dom (m_itemInfoMap (directory_with "f" 3)).
Proof.
  pose proof (Consistent_directory_with "f" 3) as C.
  destruct (Modified_returns_and_keeps_ids (one_file "f" 9)
              (directory_with "f" 3) "f") as (s' & H1 & H2 & _).
  - rewrite (nothing_awaiting _ C). intros a Ha. by apply elem_of_nil in Ha.
  - apply (rows_known _ C).
  - exists s'. by split.
Defined.

(** X15.  Which rows [OnFileModified] marks as cut when the file is still
    there.  For an item that has a row, that row alone takes the hidden
    attribute of the file as its cut mark.  For an item found in the
    awaiting list the row index is [-1], which addresses every row: all rows
    of the list view take the hidden attribute of that one file. *)
Theorem Modified_cut_marks fs s name id info w :
  m_itemInfoMap s !! id = Some info -> id <> -1 -> fs name = Some w ->
  let hidden :=
    Z.land (dwFileAttributes w) FILE_ATTRIBUTE_HIDDEN =? FILE_ATTRIBUTE_HIDDEN
  in
  (LocateFileItemIndex s name = -1 ->
   SearchAwaiting (m_itemInfoMap s) (awaitingAddList s) name = Some id ->
   exists s',
     OnFileModified fs s name = Some s'
     /\ listView s' = map (set_cut hidden) (listView s))
  /\ (forall i r,
        LocateFileItemIndex s name = Z.of_nat i ->
        listView s !! i = Some r -> lParam r = id ->
        exists s',
          OnFileModified fs s name = Some s'
          /\ listView s' = alter (set_cut hidden) i (listView s)).
Proof.
  intros Hinfo Hne Hfs hidden.
  assert (forall index,
            LocateFileItemIndex s name = index ->
            LocateModifiedItem s name = Some id ->
            exists s',
              OnFileModified fs s name = Some s'
              /\ listView s' = ListView_SetCut (listView s) index hidden)
    as Hgen.
  { intros index Hidx Hloc. unfold OnFileModified. rewrite Hloc, Hidx.
    destruct (Z.eqb_spec id (-1)); [done|]. rewrite Hinfo, Hfs.
    cbn [listView with_totalDirSize].
    destruct (ListView_IsSelected (listView s) index) eqn:Hs;
      cbn [listView with_totalDirSize with_itemInfoMap with_fileSelectionSize];
      rewrite ?Hs; eexists; (split; [reflexivity|]); reflexivity. }
  split.
  - intros Hrow Haw.
    destruct (Hgen (-1) Hrow) as (s' & Hrun & Hlv).
    { unfold LocateModifiedItem. by rewrite Hrow. }
    exists s'. split; [exact Hrun|]. by rewrite Hlv.
  - intros i r Hrow Hi Hr.
    destruct (Hgen (Z.of_nat i) Hrow) as (s' & Hrun & Hlv).
    { unfold LocateModifiedItem. rewrite Hrow.
      destruct (Z.eqb_spec (Z.of_nat i) (-1)); [lia|].
      by rewrite (ListView_GetItem_row _ _ _ Hi), Hr. }
    exists s'. split; [exact Hrun|]. rewrite Hlv. unfold ListView_SetCut.
    destruct (Z.eqb_spec (Z.of_nat i) (-1)); [lia|].
    destruct (Z.ltb_spec (Z.of_nat i) 0); [lia|]. by rewrite Nat2Z.id.
Qed.

Lemma Modified_cut_marks_example :
  exists s',
    OnFileModified (fun _ => Some (mkWfd FILE_ATTRIBUTE_HIDDEN 0 4 "g"))
      (with_awaitingAddList [mkAwaiting (-1) 1 false (-1)]
         (with_itemInfoMap
            (<[1 := mkItemInfo "g" (plain_file "g" 4)]>
               (m_itemInfoMap (directory_with "f" 3)))
            (directory_with "f" 3))) "g" = Some s'
    /\ listView s' = [mkLv 0 false true].
Proof.
  set (s := with_awaitingAddList [mkAwaiting (-1) 1 false (-1)]
              (with_itemInfoMap
                 (<[1 := mkItemInfo "g" (plain_file "g" 4)]>
                    (m_itemInfoMap (directory_with "f" 3)))
                 (directory_with "f" 3))).
  assert (m_itemInfoMap s !! 1 = Some (mkItemInfo "g" (plain_file "g" 4)))
    as Hinfo by (vm_compute; reflexivity).
  assert (1 <> -1) as Hne by lia.
  assert (LocateFileItemIndex s "g" = -1) as Hrow by (vm_compute; reflexivity).
  assert (SearchAwaiting (m_itemInfoMap s) (awaitingAddList s) "g" = Some 1)
    as Haw by (vm_compute; reflexivity).
  destruct (proj1 (Modified_cut_marks
                     (fun _ => Some (mkWfd FILE_ATTRIBUTE_HIDDEN 0 4 "g"))
                     s "g" 1 _ _ Hinfo Hne eq_refl) Hrow Haw)
    as (s' & H1 & H2).
  exists s'. split; [exact H1|]. rewrite H2. vm_compute. reflexivity.
Defined.

(** X16.  The counters are unsigned and are not clamped.  When
    [OnFileModified] subtracts a stored size that exceeds the directory size
    (the file then being gone), the directory size wraps around to
    [2^64 - (size - total)] instead of stopping at zero. *)
Theorem Modified_underflow_wraps fs s name id info :
  LocateModifiedItem s name = Some id -> id <> -1 ->
  m_itemInfoMap s !! id = Some info -> fs name = None ->
  0 <= totalDirSize s < ItemSize info -> ItemSize info < 2 ^ 64 ->
  exists s',
    OnFileModified fs s name = Some s'
    /\ totalDirSize s' = 2 ^ 64 - (ItemSize info - totalDirSize s)
    /\ 0 < totalDirSize s' < 2 ^ 64.
Proof.
  intros Hloc Hne Hinfo Hfs Htot Hsize.
  destruct (OnFileModified_located fs s name id info Hloc Hne Hinfo)
    as (s' & Hrun & _ & Ht & _).
  rewrite Hfs in Ht.
  assert (ItemSize (zero_size info) = 0) as Hz by reflexivity.
  assert (totalDirSize s' = 2 ^ 64 - (ItemSize info - totalDirSize s)) as Heq.
  { rewrite Ht, Hz. unfold wrap64.
    rewrite <- (Z_mod_plus_full _ 1 (2 ^ 64)). rewrite Z.mod_small; lia. }
  exists s'. split; [exact Hrun|]. split; [exact Heq|]. lia.
Qed.

Lemma Modified_underflow_example :
  exists s',
    OnFileModified no_files (with_totalDirSize 1 (directory_with "f" 3)) "f"
    = Some s'
    /\ totalDirSize s' = 2 ^ 64 - 2.
Proof.
  assert (LocateModifiedItem (with_totalDirSize 1 (directory_with "f" 3)) "f"
          = Some 0) as Hloc by (vm_compute; reflexivity).
  assert (0 <> -1) as Hne by lia.
  assert (m_itemInfoMap (with_totalDirSize 1 (directory_with "f" 3)) !! 0
          = Some (mkItemInfo "f" (plain_file "f" 3))) as Hinfo
    by (vm_compute; reflexivity).
  assert (0 <= totalDirSize (with_totalDirSize 1 (directory_with "f" 3))
          < ItemSize (mkItemInfo "f" (plain_file "f" 3))) as Htot
    by (vm_compute; split; [discriminate | reflexivity]).
  assert (ItemSize (mkItemInfo "f" (plain_file "f" 3)) < 2 ^ 64) as Hsize
    by (vm_compute; reflexivity).
  destruct (Modified_underflow_wraps no_files _ "f" 0 _ Hloc Hne Hinfo eq_refl
              Htot Hsize) as (s' & H1 & H2 & _).
  exists s'. split; [exact H1|]. rewrite H2. vm_compute. reflexivity.
Defined.

(** X17.  A modification that finds the file exactly as it is stored is a
    round trip for the item and the counters: the size is taken out and put
    back, so with counters in the 64-bit range the map, the directory size
    and the selection size are what they were. *)
Theorem Modified_without_change fs s name id info :
  LocateModifiedItem s name = Some id -> id <> -1 ->
  m_itemInfoMap s !! id = Some info -> fs name = Some (wfd info) ->
  0 <= totalDirSize s < 2 ^ 64 -> 0 <= fileSelectionSize s < 2 ^ 64 ->
  exists s',
    OnFileModified fs s name = Some s'
    /\ m_itemInfoMap s' = m_itemInfoMap s
    /\ totalDirSize s' = totalDirSize s
    /\ fileSelectionSize s' = fileSelectionSize s.
Proof.
  intros Hloc Hne Hinfo Hfs Htot Hsel.
  destruct (OnFileModified_located fs s name id info Hloc Hne Hinfo)
    as (s' & Hrun & Hm & Ht & Hs & _).
  rewrite Hfs in Hm, Ht, Hs.
  assert (mkItemInfo (pidlComplete info) (wfd info) = info) as Heta
    by (by destruct info).
  rewrite Heta in Hm, Ht, Hs.
  exists s'. split; [exact Hrun|]. split; [|split].
  - rewrite Hm. by apply insert_id.
  - rewrite Ht. replace (totalDirSize s - ItemSize info + ItemSize info)
      with (totalDirSize s) by lia.
    by apply wrap64_small.
  - rewrite Hs. destruct (ListView_IsSelected _ _); [|reflexivity].
    replace (fileSelectionSize s - ItemSize info + ItemSize info)
      with (fileSelectionSize s) by lia.
    by apply wrap64_small.
Qed.

Lemma Modified_without_change_example :
  exists s',
    OnFileModified (one_file "f" 3) (directory_with "f" 3) "f" = Some s'
    /\ m_itemInfoMap s' = m_itemInfoMap (directory_with "f" 3)
    /\ totalDirSize s' = totalDirSize (directory_with "f" 3).
Proof.
  assert (LocateModifiedItem (directory_with "f" 3) "f" = Some 0) as Hloc
    by (vm_compute; reflexivity).
  assert (0 <> -1) as Hne by lia.
  assert (m_itemInfoMap (directory_with "f" 3) !! 0
          = Some (mkItemInfo "f" (plain_file "f" 3))) as Hinfo
    by (vm_compute; reflexivity).
  assert (0 <= totalDirSize (directory_with "f" 3) < 2 ^ 64) as Htot
    by (vm_compute; split; [discriminate | reflexivity]).
  assert (0 <= fileSelectionSize (directory_with "f" 3) < 2 ^ 64) as Hsel
    by (vm_compute; split; [discriminate | reflexivity]).
  destruct (Modified_without_change (one_file "f" 3) _ "f" 0 _ Hloc Hne Hinfo
              eq_refl Htot Hsel) as (s' & H1 & H2 & H3 & _).
  exists s'. by repeat split.
Defined.

(** ** Adds *)

Lemma insert_at_end {A} (x : A) (l : list A) :
  insert_at (length l) x l = (l ++ [x])%list.
Proof. unfold insert_at. by rewrite take_ge, drop_ge by lia. Qed.

(** X18.  Where the row of an added file goes.  With the "insert sorted"
    setting on and a name that was not dropped in, the row is inserted at
    the position the sort order gives for the new item; a file that was
    dropped in, or any file when the setting is off, gets its row at the
    end of the list view. *)
Theorem added_row_position E fs s name w :
  awaitingAddList s = [] -> fs name = Some w ->
  let id := m_itemIDCounter s in
  listView (OnFileAdded E fs s name)
  = if insertSorted E && negb (contains name (m_DroppedFileNameList s))
    then insert_at
           (Z.to_nat
              (DetermineItemSortedPosition E
                 (<[id := mkItemInfo name w]> (m_itemInfoMap s))
                 (listView s) id))
           (mkLv id false false) (listView s)
    else (listView s ++ [mkLv id false false])%list.
Proof.
  intros Haw Hfs id. subst id.
  unfold OnFileAdded, GetItemInformation. rewrite Hfs.
  cbn [AddItemInternal]. unfold InsertAwaitingItems.
  destruct (insertSorted E && negb _);
    cbn [awaitingAddList with_awaitingAddList with_totalDirSize
         with_itemIDCounter with_itemInfoMap];
    rewrite Haw; cbn [app SetAwaitingPosition iItemInternal];
    rewrite ?Z.eqb_refl; cbn [fold_left]; unfold InsertAwaitingItem;
    cbn [bPosition iItem iItemInternal listView with_awaitingAddList
         with_listView emit with_totalDirSize with_itemIDCounter
         with_itemInfoMap m_itemInfoMap];
    [reflexivity | apply insert_at_end].
Qed.

Lemma added_row_position_example :
  listView
    (OnFileAdded env0 (one_file "g" 4)
       (mkState 1 (m_itemInfoMap (directory_with "f" 3)) 1
          (listView (directory_with "f" 3)) [] [] ["g"] [] [] 3 0 false (-1) [])
       "g")
  = (listView (directory_with "f" 3) ++ [mkLv 1 false false])%list.
Proof.
  apply (added_row_position env0 (one_file "g" 4)
           (mkState 1 (m_itemInfoMap (directory_with "f" 3)) 1
              (listView (directory_with "f" 3)) [] [] ["g"] [] [] 3 0 false
              (-1) [])
           "g" (plain_file "g" 4) eq_refl eq_refl).
Defined.

(** ** Column invalidation *)

(** X19.  [InvalidateAllColumnsForItem] does nothing outside the details
    view.  In the details view it resets the text of the given item only,
    once for each sub-item index below the number of checked columns:
    unchecked columns are not counted, so the calls never outnumber the
    columns. *)
Theorem InvalidateAllColumnsForItem_calls detailsView activeColumns itemIndex :
  let calls := InvalidateAllColumnsForItem detailsView activeColumns itemIndex in
  (detailsView = false -> calls = [])
  /\ (detailsView = true ->
      length calls = length (List.filter bChecked activeColumns)
      /\ (length calls <= length activeColumns)%nat
      /\ NoDup calls
      /\ forall item sub,
           (item, sub) ∈ calls
           <-> item = itemIndex
               /\ 0 <= sub
                  < Z.of_nat (length (List.filter bChecked activeColumns))).
Proof.
  cbn zeta. unfold InvalidateAllColumnsForItem. split.
  - by intros ->.
  - intros ->. cbn [negb].
    set (n := length (List.filter bChecked activeColumns)).
    split; [by rewrite length_map, length_seq|].
    split.
    { rewrite length_map, length_seq. subst n. apply filter_length_le. }
    split.
    { apply NoDup_fmap_2; [|apply NoDup_seq].
      intros i j [= H]. lia. }
    intros item sub. rewrite list_elem_of_In, in_map_iff. split.
    + intros (i & [= <- <-] & Hi). apply in_seq in Hi. split; [done|lia].
    + intros [-> Hsub]. exists (Z.to_nat sub). split.
      * f_equal. lia.
      * apply in_seq. lia.
Qed.

Lemma InvalidateAllColumnsForItem_example :
  length (InvalidateAllColumnsForItem true
            [mkColumn 1 true; mkColumn 2 false; mkColumn 3 true] 5)
  = 2%nat.
Proof.
  destruct (InvalidateAllColumnsForItem_calls true
              [mkColumn 1 true; mkColumn 2 false; mkColumn 3 true] 5)
    as [_ H].
  destruct (H eq_refl) as [H1 _]. exact H1.
Defined.
